(** * The user-record CRUD application (app.py): store and pages

    A shallow embedding of [app.py]: the five Record Store functions
    ([insert_record], [view_all_records], [view_record_by_id],
    [update_record], [delete_record]) with [init_database], over a model of
    the SQLite table [users], and the Streamlit pages that call them.

    Conventions.
    - A Python [str] is a list of Unicode code points, lone surrogates
      included; the text that a widget delivers ([text]) holds none.
    - A Python [int] is a [Z]; an integer that SQLite stores ([rowid]) fits
      64 bits, and so does every integer that it binds.
    - [created_at] is the UTC time in whole seconds, the resolution of
      SQLite's [CURRENT_TIMESTAMP]; the clock of the model counts the same
      seconds.
    - A function of the source that touches the database file, the clock or
      the page runs in the monad [M]: state passing over [world], with
      Python exceptions as the [Raise] outcome. *)

From Stdlib Require Import ZArith NArith List String Ascii Bool Lia.
From Stdlib Require Import Sorting.Sorted Sorting.Permutation.
From Stdlib Require Import DecimalString.
Import ListNotations.
Open Scope Z_scope.

(** ** Python values *)

Definition str : Type := list N.

Module Py.

(** An ASCII literal of the source as a [str]. *)
Definition lit (s : string) : str :=
  List.map N_of_ascii (list_ascii_of_string s).

(** [str.isspace] on one code point (CPython's table of white space). *)
Definition isspace (c : N) : bool :=
  (((9 <=? c) && (c <=? 13)) || ((28 <=? c) && (c <=? 32))
   || (c =? 133) || (c =? 160) || (c =? 5760)
   || ((8192 <=? c) && (c <=? 8202))
   || (c =? 8232) || (c =? 8233) || (c =? 8239) || (c =? 8287)
   || (c =? 12288))%N.

Fixpoint lstrip (s : str) : str :=
  match s with
  | [] => []
  | c :: t => if isspace c then lstrip t else s
  end.

Definition rstrip (s : str) : str := rev (lstrip (rev s)).

(** [s.strip()] *)
Definition strip (s : str) : str := rstrip (lstrip s).

(** Truth value of a [str]: the empty string is the only false one. *)
Definition truthy (s : str) : bool :=
  match s with [] => false | _ :: _ => true end.

(** [c in s] for a one-character [c]. *)
Definition contains (c : N) (s : str) : bool := existsb (N.eqb c) s.

(** [str(z)], as an f-string formats an [int]. *)
Definition repr_int (z : Z) : str :=
  lit (NilZero.string_of_int (Z.to_int z)).

Definition at_sign : N := 64.

(** A code point of the surrogate range, which UTF-8 cannot encode. *)
Definition surrogate (c : N) : bool := ((55296 <=? c) && (c <=? 57343))%N.

(** [s] has no lone surrogate: [s.encode('utf-8')] succeeds. *)
Definition encodable (s : str) : bool :=
  forallb (fun c => negb (surrogate c)) s.

(** The index of the first surrogate of [s], counted from [k]. *)
Fixpoint first_surrogate (k : Z) (s : str) : option (Z * N * str) :=
  match s with
  | [] => None
  | c :: t => if surrogate c then Some (k, c, t)
              else first_surrogate (k + 1) t
  end.

(** The number of surrogates at the head of [s]. *)
Fixpoint surrogate_run (s : str) : Z :=
  match s with
  | [] => 0
  | c :: t => if surrogate c then 1 + surrogate_run t else 0
  end.

Definition hex_digit (d : N) : N :=
  (if d <? 10 then 48 + d else 87 + d)%N.

(** Four hexadecimal digits, as ['%04x'] prints them. *)
Definition hex4 (c : N) : str :=
  [hex_digit ((c / 4096) mod 16); hex_digit ((c / 256) mod 16);
   hex_digit ((c / 16) mod 16); hex_digit (c mod 16)]%N.

(** [str(e)] for the UnicodeEncodeError of [s.encode('utf-8')]; the error
    spans the surrogates that follow one another. *)
Definition encode_error (s : str) : str :=
  match first_surrogate 0 s with
  | None => []
  | Some (k, c, t) =>
      if surrogate_run t =? 0 then
        lit "'utf-8' codec can't encode character '\u" ++ hex4 c
        ++ lit "' in position " ++ repr_int k
        ++ lit ": surrogates not allowed"
      else
        lit "'utf-8' codec can't encode characters in position "
        ++ repr_int k ++ lit "-" ++ repr_int (k + surrogate_run t)
        ++ lit ": surrogates not allowed"
  end.

End Py.

(** ** What SQLite holds and what a widget delivers *)

(** SQLite integers have 64 bits, sign included. *)
Definition int64 (z : Z) : bool :=
  (-9223372036854775808 <=? z) && (z <=? 9223372036854775807).

(** The value of an INTEGER PRIMARY KEY column. *)
Record rowid : Type := mk_rowid {
  rowid_value : Z;
  rowid_fits : int64 rowid_value = true
}.

(** [z] as a rowid; 0 stands for an integer that is none. *)
Definition to_rowid (z : Z) : rowid :=
  match bool_dec (int64 z) true with
  | left fits => {| rowid_value := z; rowid_fits := fits |}
  | right _ => {| rowid_value := 0; rowid_fits := eq_refl |}
  end.

(** The text of a [st.text_input]: the browser sends it as UTF-8, so it
    holds no lone surrogate. *)
Record text : Type := mk_text {
  code_points :> list N;
  text_encodable : Py.encodable code_points = true
}.

(** An ASCII literal as the text of a widget. *)
Definition text_lit (s : string) : text :=
  match bool_dec (Py.encodable (Py.lit s)) true with
  | left ok => {| code_points := Py.lit s; text_encodable := ok |}
  | right _ => {| code_points := []; text_encodable := eq_refl |}
  end.

(** ** The table [users] *)

(** A row of [users]: the six columns of the CREATE TABLE statement. *)
Record user : Type := row {
  rowid_of : rowid;
  name : str;
  email : str;
  phone : str;
  age : Z;
  created_at : Z
}.

(** The column [id], as Python reads it. *)
Definition id (r : user) : Z := rowid_value (rowid_of r).

(** The row with the given columns. *)
Definition mk_user (id' : Z) (name' email' phone' : str) (age' created_at' : Z)
  : user :=
  {| rowid_of := to_rowid id'; name := name'; email := email';
     phone := phone'; age := age'; created_at := created_at' |}.

(** The database file once the table exists: the rows of [users] in storage
    order, and the entry of [sqlite_sequence] that AUTOINCREMENT keeps for
    the table (the largest rowid ever handed out). *)
Record database : Type := mk_database {
  users : list user;
  sqlite_sequence : Z
}.

(** The largest rowid SQLite can hand out. *)
Definition MAX_ROWID : Z := 9223372036854775807.

Definition empty_table : database :=
  {| users := []; sqlite_sequence := 0 |}.

(** The largest rowid among the stored rows (0 for an empty table). *)
Definition last_rowid (rows : list user) : Z :=
  fold_right (fun r m => Z.max (id r) m) 0 rows.

Definition ids (rows : list user) : list Z := List.map id rows.

(** Outcome of a computation that may raise a Python exception, kept with
    its message. *)
Inductive result (A : Type) : Type :=
| Ok (a : A)
| Raise (e : str).
Arguments Ok {A} a.
Arguments Raise {A} e.

(** *** Statements

    A statement maps the file contents ([None]: the table does not exist
    yet) to its result and the new contents, or raises. The values for its
    question marks are Python values that [execute] binds first. *)

(** A Python value given for a question mark. *)
Inductive parameter : Type :=
| an_int (z : Z)
| a_str (s : str).

(** Binding one value: an [int] must fit 64 bits (OverflowError), a [str]
    must encode as UTF-8 (UnicodeEncodeError). *)
Definition bind_parameter (p : parameter) : result unit :=
  match p with
  | an_int z =>
      if int64 z then Ok tt
      else Raise (Py.lit "Python int too large to convert to SQLite INTEGER")
  | a_str s =>
      if Py.encodable s then Ok tt else Raise (Py.encode_error s)
  end.

(** Binding the values from left to right; the first failure is raised. *)
Fixpoint bind_parameters (params : list parameter) : result unit :=
  match params with
  | [] => Ok tt
  | p :: rest =>
      match bind_parameter p with
      | Ok _ => bind_parameters rest
      | Raise e => Raise e
      end
  end.

Definition statement (A : Type) : Type :=
  option database -> result (A * option database).

(** A statement on [users] raises when the table is missing. *)
Definition on_users {A : Type}
    (f : database -> result (A * database)) : statement A :=
  fun file =>
    match file with
    | None => Raise (Py.lit "no such table: users")
    | Some db =>
        match f db with
        | Ok (a, db') => Ok (a, Some db')
        | Raise e => Raise e
        end
    end.

(** CREATE TABLE IF NOT EXISTS users (...) *)
Definition sql_create_table : statement unit :=
  fun file =>
    match file with
    | None => Ok (tt, Some empty_table)
    | Some db => Ok (tt, Some db)
    end.

(** The rowid AUTOINCREMENT picks: one more than the largest rowid that ever
    existed in the table; none once [MAX_ROWID] has been used. *)
Definition new_rowid (db : database) : option Z :=
  if (MAX_ROWID <=? last_rowid (users db))
     || (MAX_ROWID <=? sqlite_sequence db)
  then None
  else Some (Z.max (last_rowid (users db) + 1) (sqlite_sequence db + 1)).

(** INSERT INTO users (name, email, phone, age) VALUES (?, ?, ?, ?)
    at time [now]: [id] from AUTOINCREMENT, [created_at] from its default
    CURRENT_TIMESTAMP. *)
Definition sql_insert (now : Z) (name' email' phone' : str) (age' : Z)
  : statement unit :=
  on_users (fun db =>
    match new_rowid db with
    | None => Raise (Py.lit "database or disk is full")
    | Some v =>
        Ok (tt, {| users := users db ++
                     [mk_user v name' email' phone' age' now];
                   sqlite_sequence := v |})
    end).

(** Insertion of a row in a list sorted by id, largest first. *)
Fixpoint insert_desc (r : user) (l : list user) : list user :=
  match l with
  | [] => [r]
  | x :: t => if id x <=? id r then r :: l else x :: insert_desc r t
  end.

(** ORDER BY id DESC *)
Definition order_by_id_desc (rows : list user) : list user :=
  fold_right insert_desc [] rows.

(** SELECT id, name, email, phone, age, created_at FROM users
    ORDER BY id DESC *)
Definition sql_select_all : statement (list user) :=
  on_users (fun db => Ok (order_by_id_desc (users db), db)).

(** SELECT name, email, phone, age FROM users WHERE id = ?
    as [cursor.fetchone()] reads it: the first row of the result, [None]
    when there is none. *)
Definition sql_select_by_id (record_id : Z)
  : statement (option (str * str * str * Z)) :=
  on_users (fun db =>
    Ok (match find (fun r => id r =? record_id) (users db) with
        | Some r => Some (name r, email r, phone r, age r)
        | None => None
        end, db)).

(** UPDATE users SET name = ?, email = ?, phone = ?, age = ? WHERE id = ? *)
Definition set_fields (record_id : Z) (name' email' phone' : str) (age' : Z)
    (r : user) : user :=
  if id r =? record_id
  then {| rowid_of := rowid_of r; name := name'; email := email';
          phone := phone'; age := age'; created_at := created_at r |}
  else r.

Definition sql_update (record_id : Z) (name' email' phone' : str) (age' : Z)
  : statement unit :=
  on_users (fun db =>
    Ok (tt, {| users := List.map (set_fields record_id name' email' phone' age')
                          (users db);
               sqlite_sequence := sqlite_sequence db |})).

(** DELETE FROM users WHERE id = ? *)
Definition sql_delete (record_id : Z) : statement unit :=
  on_users (fun db =>
    Ok (tt, {| users := filter (fun r => negb (id r =? record_id)) (users db);
               sqlite_sequence := sqlite_sequence db |})).

(** ** The world: database file, clock and page *)

(** The condition of the SQLite engine during one call of a store function:
    [Faulty e] makes the statement raise an exception with message [e] (an
    I/O error, a locked file). *)
Inductive engine : Type :=
| Healthy
| Faulty (e : str).

(** What [pd.read_sql_query] builds, and [pd.DataFrame()]. *)
Record DataFrame : Type := mk_DataFrame {
  columns : list str;
  rows : list user
}.

(** What the script has put on the page. *)
Inductive element : Type :=
| Error (body : str)
| Info (body : str)
| Success (body : str)
| Warning (body : str)
| Subheader (body : str)
| Dataframe (data : DataFrame).

Record world : Type := mk_world {
  disk : option database;   (* data.db; [None] before the table exists *)
  clock : Z;                (* UTC time, seconds *)
  screen : list element     (* the page, oldest element first *)
}.

Definition M (A : Type) : Type := world -> result A * world.

Definition ret {A : Type} (a : A) : M A := fun w => (Ok a, w).

Definition bind {A B : Type} (m : M A) (f : A -> M B) : M B :=
  fun w =>
    match m w with
    | (Ok a, w') => f a w'
    | (Raise e, w') => (Raise e, w')
    end.

Definition raise {A : Type} (e : str) : M A := fun w => (Raise e, w).

(** try: [body] except Exception as e: [handler e] *)
Definition try_except {A : Type} (body : M A) (handler : str -> M A) : M A :=
  fun w =>
    match body w with
    | (Ok a, w') => (Ok a, w')
    | (Raise e, w') => handler e w'
    end.

Declare Scope monad_scope.
Delimit Scope monad_scope with monad.
Notation "x <- m ;; k" := (bind m (fun x => k))
  (at level 61, m at next level, right associativity) : monad_scope.
Notation "m ;; k" := (bind m (fun _ => k))
  (at level 61, right associativity) : monad_scope.
Open Scope monad_scope.

Definition show (e : element) : M unit :=
  fun w => (Ok tt, {| disk := disk w; clock := clock w;
                      screen := screen w ++ [e] |}).

Definition st_error (body : str) : M unit := show (Error body).
Definition st_info (body : str) : M unit := show (Info body).
Definition st_success (body : str) : M unit := show (Success body).
Definition st_warning (body : str) : M unit := show (Warning body).
Definition st_subheader (body : str) : M unit := show (Subheader body).
Definition st_dataframe (df : DataFrame) : M unit := show (Dataframe df).

(** *** Connections

    A connection sees the file as it was when the connection was opened,
    plus its own changes; [commit] writes them to the file. *)
Record connection : Type := mk_connection {
  condition : engine;
  contents : option database
}.

Definition get_connection (eng : engine) : M connection :=
  fun w => (Ok {| condition := eng; contents := disk w |}, w).

(** cursor.execute(sql, parameters): the values are bound, then the
    statement runs. *)
Definition execute {A : Type} (conn : connection) (stmt : statement A)
    (parameters : list parameter) : M (A * connection) :=
  fun w =>
    match condition conn with
    | Faulty e => (Raise e, w)
    | Healthy =>
        match bind_parameters parameters with
        | Raise e => (Raise e, w)
        | Ok _ =>
            match stmt (contents conn) with
            | Ok (a, file') =>
                (Ok (a, {| condition := Healthy; contents := file' |}), w)
            | Raise e => (Raise e, w)
            end
        end
    end.

Definition commit (conn : connection) : M unit :=
  fun w => (Ok tt, {| disk := contents conn; clock := clock w;
                      screen := screen w |}).

Definition close (conn : connection) : M unit := ret tt.

(** The clock as the statement reads it, [latency] seconds after the call. *)
Definition current_timestamp (latency : N) : M Z :=
  fun w =>
    let now := clock w + Z.of_N latency in
    (Ok now, {| disk := disk w; clock := now; screen := screen w |}).

(** ** The Record Store *)

Definition init_database (eng : engine) : M unit :=
  conn <- get_connection eng;;
  r <- execute conn sql_create_table [];;
  commit (snd r);;
  close (snd r).

Definition insert_record (eng : engine) (latency : N)
    (name' email' phone' : str) (age' : Z) : M bool :=
  try_except
    (conn <- get_connection eng;;
     now <- current_timestamp latency;;
     r <- execute conn (sql_insert now name' email' phone' age')
            [a_str name'; a_str email'; a_str phone'; an_int age'];;
     commit (snd r);;
     close (snd r);;
     ret true)
    (fun e =>
       st_error (Py.lit "Error inserting record: " ++ e);;
       ret false).

Definition users_columns : list str :=
  [Py.lit "id"; Py.lit "name"; Py.lit "email"; Py.lit "phone"; Py.lit "age";
   Py.lit "created_at"].

(** pd.DataFrame() *)
Definition pd_DataFrame : DataFrame := {| columns := []; rows := [] |}.

Definition read_sql_query (query : statement (list user)) (conn : connection)
  : M DataFrame :=
  r <- execute conn query [];;
  ret {| columns := users_columns; rows := fst r |}.

Definition view_all_records (eng : engine) : M DataFrame :=
  try_except
    (conn <- get_connection eng;;
     df <- read_sql_query sql_select_all conn;;
     close conn;;
     ret df)
    (fun e =>
       st_error (Py.lit "Error reading records: " ++ e);;
       ret pd_DataFrame).

Definition view_record_by_id (eng : engine) (record_id : Z)
  : M (option (str * str * str * Z)) :=
  try_except
    (conn <- get_connection eng;;
     r <- execute conn (sql_select_by_id record_id) [an_int record_id];;
     let record := fst r in
     close conn;;
     ret record)
    (fun e =>
       st_error (Py.lit "Error fetching record: " ++ e);;
       ret None).

Definition update_record (eng : engine) (record_id : Z)
    (name' email' phone' : str) (age' : Z) : M bool :=
  try_except
    (conn <- get_connection eng;;
     r <- execute conn (sql_update record_id name' email' phone' age')
            [a_str name'; a_str email'; a_str phone'; an_int age';
             an_int record_id];;
     commit (snd r);;
     close (snd r);;
     ret true)
    (fun e =>
       st_error (Py.lit "Error updating record: " ++ e);;
       ret false).

Definition delete_record (eng : engine) (record_id : Z) : M bool :=
  try_except
    (conn <- get_connection eng;;
     r <- execute conn (sql_delete record_id) [an_int record_id];;
     commit (snd r);;
     close (snd r);;
     ret true)
    (fun e =>
       st_error (Py.lit "Error deleting record: " ++ e);;
       ret false).

(** ** The pages *)

(** df.empty: some axis has length 0. *)
Definition df_empty (df : DataFrame) : bool :=
  (List.length (columns df) =? 0)%nat || (List.length (rows df) =? 0)%nat.

(** df["id"].tolist() *)
Definition df_id_tolist (df : DataFrame) : list Z := ids (rows df).

(** len(df) *)
Definition df_len (df : DataFrame) : Z := Z.of_nat (List.length (rows df)).

(** The marks that open the messages. *)
Definition cross_mark : str := [10060%N].
Definition check_mark : str := [9989%N].
Definition warning_sign : str := [9888%N; 65039%N].

(** st.number_input(min_value, max_value, value): the widget refuses a
    default outside its bounds, and hands back a number within them: what
    the user typed, [entry], when that is within the bounds, its current
    value otherwise. *)
Definition number_input (min_value max_value value entry : Z) : M Z :=
  if value <? min_value then
    raise (Py.lit "The `value` " ++ Py.repr_int value
           ++ Py.lit " is less than the `min_value` "
           ++ Py.repr_int min_value ++ Py.lit ".")
  else if max_value <? value then
    raise (Py.lit "The `value` " ++ Py.repr_int value
           ++ Py.lit " is greater than the `max_value` "
           ++ Py.repr_int max_value ++ Py.lit ".")
  else
    ret (if (min_value <=? entry) && (entry <=? max_value)
         then entry else value).

(** st.selectbox(options): the option the user picked, the first one when
    the pick is not among them. *)
Definition selectbox (options : list Z) (choice : nat) : Z :=
  nth choice options (hd 0 options).

(** What the user typed in the four inputs of a form. *)
Record entries : Type := mk_entries {
  entry_name : text;
  entry_age : Z;
  entry_email : text;
  entry_phone : text
}.

(** What the engine and the clock do during one run of the script. *)
Record conditions : Type := mk_conditions {
  at_init : engine;     (* during init_database *)
  at_list : engine;     (* during view_all_records *)
  at_get : engine;      (* during view_record_by_id *)
  at_write : engine;    (* during insert, update or delete *)
  elapsed : N;          (* seconds since the previous run *)
  latency : N           (* seconds from the call to the INSERT *)
}.

(** The body of the View Records page once [df] is read. *)
Definition view_records_body (df : DataFrame) : M unit :=
  if df_empty df then
    st_info (Py.lit "No records found. Start by adding a new record!")
  else
    st_subheader (Py.lit "Total Records: " ++ Py.repr_int (df_len df));;
    st_dataframe df.

Definition view_records_page (c : conditions) : M unit :=
  df <- view_all_records (at_list c);;
  view_records_body df.

Definition add_record_page (c : conditions) (form : entries)
    (submit_button : bool) : M unit :=
  st_subheader (Py.lit "Enter New User Details");;
  let name' : str := entry_name form in
  age' <- number_input 1 120 25 (entry_age form);;
  let email' : str := entry_email form in
  let phone' : str := entry_phone form in
  if submit_button then
    if negb (Py.truthy (Py.strip name')) then
      st_error (cross_mark ++ Py.lit " Name cannot be empty!")
    else if negb (Py.truthy (Py.strip email')) then
      st_error (cross_mark ++ Py.lit " Email cannot be empty!")
    else if negb (Py.truthy (Py.strip phone')) then
      st_error (cross_mark ++ Py.lit " Phone cannot be empty!")
    else if negb (Py.contains Py.at_sign email') then
      st_error (cross_mark ++ Py.lit " Please enter a valid email address!")
    else if age' <? 1 then
      st_error (cross_mark ++ Py.lit " Age must be at least 1!")
    else
      ok <- insert_record (at_write c) (latency c) name' email' phone' age';;
      if ok then
        st_success (check_mark ++ Py.lit " Record added successfully! Name: "
                    ++ name' ++ Py.lit ", Age: " ++ Py.repr_int age')
      else
        st_error (cross_mark ++ Py.lit " Failed to add record.")
  else ret tt.

(** The body of the Update Record page once [df] is read. *)
Definition update_record_body (c : conditions) (choice : nat)
    (form : entries) (update_button : bool) (df : DataFrame) : M unit :=
  if df_empty df then
    st_info (Py.lit "No records available to update.")
  else
    let selected_id := selectbox (df_id_tolist df) choice in
    record <- view_record_by_id (at_get c) selected_id;;
    match record with
    | None => ret tt
    | Some (name', email', phone', age') =>
        st_subheader (Py.lit "Updating Record ID: " ++ Py.repr_int selected_id);;
        let updated_name : str := entry_name form in
        updated_age <- number_input 1 120 (if age' =? 0 then 25 else age')
                         (entry_age form);;
        let updated_email : str := entry_email form in
        let updated_phone : str := entry_phone form in
        if update_button then
          if negb (Py.truthy (Py.strip updated_name)) then
            st_error (cross_mark ++ Py.lit " Name cannot be empty!")
          else if negb (Py.truthy (Py.strip updated_email)) then
            st_error (cross_mark ++ Py.lit " Email cannot be empty!")
          else if negb (Py.truthy (Py.strip updated_phone)) then
            st_error (cross_mark ++ Py.lit " Phone cannot be empty!")
          else if negb (Py.contains Py.at_sign updated_email) then
            st_error (cross_mark ++ Py.lit " Please enter a valid email address!")
          else if updated_age <? 1 then
            st_error (cross_mark ++ Py.lit " Age must be at least 1!")
          else
            ok <- update_record (at_write c) selected_id updated_name
                    updated_email updated_phone updated_age;;
            if ok then
              st_success (check_mark ++ Py.lit " Record updated successfully!")
            else
              st_error (cross_mark ++ Py.lit " Failed to update record.")
        else ret tt
    end.

Definition update_record_page (c : conditions) (choice : nat)
    (form : entries) (update_button : bool) : M unit :=
  df <- view_all_records (at_list c);;
  update_record_body c choice form update_button df.

(** st.rerun(): the run stops here and the script starts over, which is the
    next run of the trace. *)
Definition st_rerun : M unit := ret tt.

(** One line of the f-string that shows the record to delete. *)
Definition detail_line (label : string) (value : str) (ending : string)
  : str :=
  Py.lit "            **" ++ Py.lit label ++ Py.lit ":** " ++ value
  ++ Py.lit ending ++ [10%N].

Definition details (selected_id : Z) (name' email' phone' : str) (age' : Z)
  : str :=
  [10%N]
  ++ detail_line "ID" (Py.repr_int selected_id) "  "
  ++ detail_line "Name" name' "  "
  ++ detail_line "Age" (Py.repr_int age') "  "
  ++ detail_line "Email" email' "  "
  ++ detail_line "Phone" phone' EmptyString
  ++ Py.lit "            ".

(** The body of the Delete Record page once [df] is read. *)
Definition delete_record_body (c : conditions) (choice : nat)
    (delete_button : bool) (df : DataFrame) : M unit :=
  if df_empty df then
    st_info (Py.lit "No records available to delete.")
  else
    let selected_id := selectbox (df_id_tolist df) choice in
    record <- view_record_by_id (at_get c) selected_id;;
    match record with
    | None => ret tt
    | Some (name', email', phone', age') =>
        st_warning (warning_sign
                    ++ Py.lit " You are about to delete the following record:");;
        st_info (details selected_id name' email' phone' age');;
        if delete_button then
          ok <- delete_record (at_write c) selected_id;;
          if ok then
            st_success (check_mark ++ Py.lit " Record deleted successfully! ID: "
                        ++ Py.repr_int selected_id);;
            st_rerun
          else
            st_error (cross_mark ++ Py.lit " Failed to delete record.")
        else ret tt
    end.

Definition delete_record_page (c : conditions) (choice : nat)
    (delete_button : bool) : M unit :=
  df <- view_all_records (at_list c);;
  delete_record_body c choice delete_button df.

(** What the user does in one run: the panel chosen in the sidebar, what is
    typed or picked there, and whether its button is pressed. *)
Inductive operation : Type :=
| View_Records
| Add_Record (form : entries) (submit_button : bool)
| Update_Record (choice : nat) (form : entries) (update_button : bool)
| Delete_Record (choice : nat) (delete_button : bool).

(** One run of the script, top to bottom. *)
Definition app (c : conditions) (op : operation) : M unit :=
  init_database (at_init c);;
  match op with
  | View_Records => view_records_page c
  | Add_Record form submit_button => add_record_page c form submit_button
  | Update_Record choice form update_button =>
      update_record_page c choice form update_button
  | Delete_Record choice delete_button =>
      delete_record_page c choice delete_button
  end.

(** A run starts on a blank page, [elapsed c] seconds after the previous
    one; an exception that escapes the script ends the run. *)
Definition run (w : world) (step : conditions * operation) : world :=
  snd (app (fst step) (snd step)
         {| disk := disk w; clock := clock w + Z.of_N (elapsed (fst step));
            screen := [] |}).

(** A session: runs one after the other. *)
Definition session (w : world) (steps : list (conditions * operation))
  : world :=
  fold_left run steps w.

(** Before the first run: no table, a blank page. *)
Definition fresh (start : Z) : world :=
  {| disk := None; clock := start; screen := [] |}.

(** ** Calls of the Record Store *)

(** One call of a store function, with the condition of the engine (and the
    latency of the clock) during the call. *)
Inductive call : Type :=
| Initialize (eng : engine)
| Insert (eng : engine) (latency : N) (name' email' phone' : str) (age' : Z)
| ListAll (eng : engine)
| GetById (eng : engine) (record_id : Z)
| Update (eng : engine) (record_id : Z) (name' email' phone' : str) (age' : Z)
| Delete (eng : engine) (record_id : Z).

Definition perform (w : world) (c : call) : world :=
  match c with
  | Initialize eng => snd (init_database eng w)
  | Insert eng latency name' email' phone' age' =>
      snd (insert_record eng latency name' email' phone' age' w)
  | ListAll eng => snd (view_all_records eng w)
  | GetById eng record_id => snd (view_record_by_id eng record_id w)
  | Update eng record_id name' email' phone' age' =>
      snd (update_record eng record_id name' email' phone' age' w)
  | Delete eng record_id => snd (delete_record eng record_id w)
  end.

Definition perform_all (w : world) (calls : list call) : world :=
  fold_left perform calls w.

(** ** Vocabulary of the properties *)

(** The rows and the ids in the file. *)
Definition stored (w : world) : list user :=
  match disk w with
  | Some db => users db
  | None => []
  end.

Definition stored_ids (w : world) : list Z := ids (stored w).

(** The constraints of the data model on one record. *)
Definition valid_fields (name' email' phone' : str) (age' : Z) : Prop :=
  name' <> [] /\ In Py.at_sign email' /\ phone' <> [] /\ 1 <= age' <= 120.

Definition valid_user (r : user) : Prop :=
  valid_fields (name r) (email r) (phone r) (age r).

(** The four fields [view_record_by_id] reads from a row. *)
Definition fields (r : user) : str * str * str * Z :=
  (name r, email r, phone r, age r).

(** [a] comes before [b] in [l]. *)
Definition before {A : Type} (a b : A) (l : list A) : Prop :=
  exists l1 l2 l3, l = l1 ++ a :: l2 ++ b :: l3.

(** The ids that a call has put in the file: those stored after the call
    that were not stored before it. *)
Definition new_ids (w w' : world) : list Z :=
  filter (fun i => negb (existsb (Z.eqb i) (stored_ids w))) (stored_ids w').

(** All the ids handed out along a sequence of calls, oldest first. *)
Fixpoint assigned (w : world) (calls : list call) : list Z :=
  match calls with
  | [] => []
  | c :: rest => new_ids w (perform w c) ++ assigned (perform w c) rest
  end.

(** The file with other timestamps: [stamp] gives each row its new one. *)
Definition restamp (stamp : user -> Z) (w : world) : world :=
  {| disk := match disk w with
             | None => None
             | Some db =>
                 Some {| users :=
                           List.map (fun r =>
                             {| rowid_of := rowid_of r; name := name r;
                                email := email r; phone := phone r;
                                age := age r;
                                created_at := stamp r |}) (users db);
                         sqlite_sequence := sqlite_sequence db |}
             end;
     clock := clock w;
     screen := screen w |}.

(** *** A small program logic for [M]

    [triple I m Q]: run from a file that satisfies [I], [m] leaves a file
    that satisfies [I], however it ends, and a value that satisfies [Q] when
    it returns one. *)
Definition triple {A : Type} (I : option database -> Prop) (m : M A)
    (Q : A -> Prop) : Prop :=
  forall w, I (disk w) ->
    match m w with
    | (Ok a, w') => I (disk w') /\ Q a
    | (Raise _, w') => I (disk w')
    end.

(** A statement keeps [I]. *)
Definition keeps {A : Type} (I : option database -> Prop)
    (stmt : statement A) : Prop :=
  forall file, I file ->
    match stmt file with
    | Ok (_, file') => I file'
    | Raise _ => True
    end.

(** Every row in the file meets the constraints of the data model. *)
Definition all_valid (file : option database) : Prop :=
  match file with
  | None => True
  | Some db => Forall valid_user (users db)
  end.

(** Ids are distinct, positive and at most [sqlite_sequence]. *)
Definition consistent (file : option database) : Prop :=
  match file with
  | None => True
  | Some db =>
      NoDup (ids (users db))
      /\ Forall (fun r => 1 <= id r <= sqlite_sequence db) (users db)
      /\ 0 <= sqlite_sequence db
  end.

(** Sorted by id, largest first. *)
Definition sorted_desc (l : list user) : Prop :=
  StronglySorted (fun a b => id b <= id a) l.

(** The largest rowid handed out so far, as the file records it. *)
Definition high_water (w : world) : Z :=
  match disk w with
  | Some db => sqlite_sequence db
  | None => 0
  end.

(** A form whose texts break the constraints of the data model. *)
Definition bad_texts (form : entries) : Prop :=
  code_points (entry_name form) = []
  \/ ~ In Py.at_sign (entry_email form)
  \/ code_points (entry_phone form) = [].

(** What a call does to the ids: some of the old ones go, new ones come
    last, all above the high-water mark. *)
Definition ids_step (w w' : world) : Prop :=
  (exists keep,
     stored_ids w' = filter keep (stored_ids w) ++ new_ids w w')
  /\ high_water w <= high_water w'
  /\ NoDup (new_ids w w')
  /\ Forall (fun i => high_water w < i <= high_water w') (new_ids w w').

(** ** A store with one record, for the examples *)

Definition jane : user :=
  mk_user 1 (Py.lit "Jane Doe") (Py.lit "jane@x.com") (Py.lit "555-1234")
    30 1000.

Definition jane_db : database := {| users := [jane]; sqlite_sequence := 1 |}.

Definition jane_world : world :=
  {| disk := Some jane_db; clock := 2000; screen := [] |}.

(** The store right after [init_database] on a new file. *)
Definition empty_world : world :=
  {| disk := Some empty_table; clock := 1000; screen := [] |}.

(** A run during which nothing fails. *)
Definition fair : conditions :=
  {| at_init := Healthy; at_list := Healthy; at_get := Healthy;
     at_write := Healthy; elapsed := 5; latency := 1 |}.

Definition jane_form : entries :=
  {| entry_name := text_lit "Jane Doe"; entry_age := 30;
     entry_email := text_lit "jane@x.com";
     entry_phone := text_lit "555-1234" |}.

(** A form with the name left blank. *)
Definition nameless_form : entries :=
  {| entry_name := text_lit EmptyString; entry_age := 30;
     entry_email := text_lit "jane@x.com";
     entry_phone := text_lit "555-1234" |}.

(** ** More vocabulary: forms and pages *)

(** The checks on the three texts of a form, as both forms make them. *)
Definition accepted (form : entries) : bool :=
  Py.truthy (Py.strip (entry_name form))
  && Py.truthy (Py.strip (entry_email form))
  && Py.truthy (Py.strip (entry_phone form))
  && Py.contains Py.at_sign (entry_email form).

(** What the age widget with bounds 1 and 120 holds after the user typed
    [entry] over [value]. *)
Definition committed_age (value entry : Z) : Z :=
  if (1 <=? entry) && (entry <=? 120) then entry else value.

(** The message of the age check of both forms. *)
Definition age_complaint : element :=
  Error (cross_mark ++ Py.lit " Age must be at least 1!").

(** [s] is made of white space only. *)
Definition blank (s : str) : Prop := Forall (fun c => Py.isspace c = true) s.

(** The world at the start of a run. *)
Definition start_of_run (w : world) (c : conditions) : world :=
  {| disk := disk w; clock := clock w + Z.of_N (elapsed c); screen := [] |}.

(** [hoare P m Q E]: run from a world that satisfies [P], [m] ends in a
    world and with a value that satisfy [Q], or raises an exception that,
    with the world it leaves, satisfies [E]. *)
Definition hoare {A : Type} (P : world -> Prop) (m : M A)
    (Q : A -> world -> Prop) (E : str -> world -> Prop) : Prop :=
  forall w, P w ->
    match m w with
    | (Ok a, w') => Q a w'
    | (Raise e, w') => E e w'
    end.

(** No exception at all. *)
Definition no_exception : str -> world -> Prop := fun _ _ => False.

(** A world whose stored records are all valid. *)
Definition valid_world (w : world) : Prop := all_valid (disk w).

(** The age complaint is not on the page. *)
Definition uncomplaining (w : world) : Prop := ~ In age_complaint (screen w).

(** The id that the select box of the Update and Delete pages holds: one of
    the ids that [view_all_records] listed. *)
Definition selected_id (db : database) (choice : nat) : Z :=
  selectbox (ids (order_by_id_desc (users db))) choice.

(** The four fields are values that SQLite can bind: texts that encode as
    UTF-8 and an age of 64 bits. *)
Definition bindable_fields (name' email' phone' : str) (age' : Z) : bool :=
  Py.encodable name' && Py.encodable email' && Py.encodable phone'
  && int64 age'.


(** * Properties *)

(** ** What each store function does *)

Ltac unfold_store :=
  unfold init_database, insert_record, view_all_records, view_record_by_id,
    update_record, delete_record, read_sql_query, try_except, bind, ret,
    raise, get_connection, execute, commit, close, current_timestamp,
    st_error, st_info, st_success, st_warning, st_subheader, st_dataframe,
    show, sql_insert, sql_select_all, sql_select_by_id, sql_update,
    sql_delete, sql_create_table, on_users in *.

Lemma id_mk_user (v : Z) (n e p : str) (a t : Z) :
  int64 v = true -> id (mk_user v n e p a t) = v.
Proof.
  intros Hv. unfold id, mk_user, to_rowid. cbn.
  destruct (bool_dec (int64 v) true) as [H|H]; [reflexivity|contradiction].
Qed.

Lemma id_fits (r : user) : int64 (id r) = true.
Proof. unfold id. apply rowid_fits. Qed.

Lemma bind_id (i : Z) :
  int64 i = true -> bind_parameters [an_int i] = Ok tt.
Proof. intros H. cbn. now rewrite H. Qed.

Lemma bind_fields (n e p : str) (a : Z) :
  bindable_fields n e p a = true ->
  bind_parameters [a_str n; a_str e; a_str p; an_int a] = Ok tt.
Proof.
  unfold bindable_fields. rewrite !andb_true_iff.
  intros [[[Hn He] Hp] Ha]. cbn. now rewrite Hn, He, Hp, Ha.
Qed.

Lemma bind_fields_id (n e p : str) (a i : Z) :
  bindable_fields n e p a = true -> int64 i = true ->
  bind_parameters [a_str n; a_str e; a_str p; an_int a; an_int i] = Ok tt.
Proof.
  unfold bindable_fields. rewrite !andb_true_iff.
  intros [[[Hn He] Hp] Ha] Hi. cbn. now rewrite Hn, He, Hp, Ha, Hi.
Qed.

Lemma bind_parameters_cases (params : list parameter) :
  bind_parameters params = Ok tt
  \/ exists msg, bind_parameters params = Raise msg.
Proof.
  destruct (bind_parameters params) as [[]|msg]; [now left|right; eauto].
Qed.

(** *** insert_record *)

Lemma insert_record_bound (w : world) (lat : N) (n e p : str) (a : Z) :
  bind_parameters [a_str n; a_str e; a_str p; an_int a] = Ok tt ->
  insert_record Healthy lat n e p a w =
  match disk w with
  | Some db =>
      match new_rowid db with
      | Some v =>
          (Ok true,
           {| disk := Some {| users := users db ++
                                [mk_user v n e p a (clock w + Z.of_N lat)];
                              sqlite_sequence := v |};
              clock := clock w + Z.of_N lat;
              screen := screen w |})
      | None =>
          (Ok false,
           {| disk := disk w; clock := clock w + Z.of_N lat;
              screen := screen w ++
                [Error (Py.lit "Error inserting record: "
                        ++ Py.lit "database or disk is full")] |})
      end
  | None =>
      (Ok false,
       {| disk := disk w; clock := clock w + Z.of_N lat;
          screen := screen w ++
            [Error (Py.lit "Error inserting record: "
                    ++ Py.lit "no such table: users")] |})
  end.
Proof.
  intros Hb. destruct w as [d c s].
  unfold insert_record, try_except, bind, get_connection, current_timestamp,
    execute. cbn [condition contents disk clock screen]. rewrite Hb.
  destruct d as [db|]; [|reflexivity].
  unfold sql_insert, on_users. destruct (new_rowid db); reflexivity.
Qed.

Lemma insert_record_unbound (w : world) (lat : N) (n e p : str) (a : Z)
    (msg : str) :
  bind_parameters [a_str n; a_str e; a_str p; an_int a] = Raise msg ->
  insert_record Healthy lat n e p a w =
  (Ok false,
   {| disk := disk w; clock := clock w + Z.of_N lat;
      screen := screen w ++ [Error (Py.lit "Error inserting record: " ++ msg)] |}).
Proof.
  intros Hb. destruct w as [d c s].
  unfold insert_record, try_except, bind, get_connection, current_timestamp,
    execute. cbn [condition contents disk clock screen]. rewrite Hb.
  reflexivity.
Qed.

Lemma insert_record_healthy (w : world) (db : database) (v : Z) (lat : N)
    (n e p : str) (a : Z) :
  disk w = Some db -> new_rowid db = Some v ->
  bindable_fields n e p a = true ->
  insert_record Healthy lat n e p a w =
  (Ok true,
   {| disk := Some {| users := users db ++
                        [mk_user v n e p a (clock w + Z.of_N lat)];
                      sqlite_sequence := v |};
      clock := clock w + Z.of_N lat;
      screen := screen w |}).
Proof.
  intros Hd Hv Hb. rewrite insert_record_bound by now apply bind_fields.
  now rewrite Hd, Hv.
Qed.

Lemma insert_record_faulty (w : world) (x : str) (lat : N)
    (n e p : str) (a : Z) :
  insert_record (Faulty x) lat n e p a w =
  (Ok false,
   {| disk := disk w; clock := clock w + Z.of_N lat;
      screen := screen w ++ [Error (Py.lit "Error inserting record: " ++ x)] |}).
Proof. reflexivity. Qed.

(** The two ways [insert_record] can end. *)
Lemma insert_record_outcome (eng : engine) (lat : N) (n e p : str) (a : Z)
    (w : world) :
  (exists db v,
     eng = Healthy /\ disk w = Some db /\ new_rowid db = Some v
     /\ insert_record eng lat n e p a w
        = (Ok true,
           {| disk := Some {| users := users db ++
                                [mk_user v n e p a (clock w + Z.of_N lat)];
                              sqlite_sequence := v |};
              clock := clock w + Z.of_N lat; screen := screen w |}))
  \/ (exists msg,
        insert_record eng lat n e p a w
        = (Ok false,
           {| disk := disk w; clock := clock w + Z.of_N lat;
              screen := screen w ++
                [Error (Py.lit "Error inserting record: " ++ msg)] |})).
Proof.
  destruct eng as [|x]; [|right; eexists; reflexivity].
  destruct (bind_parameters_cases [a_str n; a_str e; a_str p; an_int a])
    as [Hb|[msg Hb]].
  - rewrite (insert_record_bound w lat n e p a Hb).
    destruct (disk w) as [db|] eqn:Hd; [|right; eexists; reflexivity].
    destruct (new_rowid db) as [v|] eqn:Hv; [|right; eexists; reflexivity].
    left. exists db, v. now repeat split.
  - right. exists msg. now apply insert_record_unbound.
Qed.

(** *** view_all_records *)

Lemma view_all_records_healthy (w : world) (db : database) :
  disk w = Some db ->
  view_all_records Healthy w =
  (Ok {| columns := users_columns; rows := order_by_id_desc (users db) |}, w).
Proof.
  intros Hd. destruct w as [d c s]; cbn in Hd; subst d. reflexivity.
Qed.

Lemma view_all_records_no_table (w : world) :
  disk w = None ->
  view_all_records Healthy w =
  (Ok pd_DataFrame,
   {| disk := disk w; clock := clock w;
      screen := screen w ++
        [Error (Py.lit "Error reading records: "
                ++ Py.lit "no such table: users")] |}).
Proof.
  intros Hd. destruct w as [d c s]; cbn in Hd; subst d. reflexivity.
Qed.

Lemma view_all_records_faulty (w : world) (x : str) :
  view_all_records (Faulty x) w =
  (Ok pd_DataFrame,
   {| disk := disk w; clock := clock w;
      screen := screen w ++ [Error (Py.lit "Error reading records: " ++ x)] |}).
Proof. reflexivity. Qed.

(** The two ways [view_all_records] can end. *)
Lemma view_all_records_outcome (eng : engine) (w : world) :
  (exists db,
     eng = Healthy /\ disk w = Some db
     /\ view_all_records eng w
        = (Ok {| columns := users_columns;
                 rows := order_by_id_desc (users db) |}, w))
  \/ (exists msg,
        view_all_records eng w
        = (Ok pd_DataFrame,
           {| disk := disk w; clock := clock w;
              screen := screen w ++
                [Error (Py.lit "Error reading records: " ++ msg)] |})).
Proof.
  destruct eng as [|x]; [|right; eexists; reflexivity].
  destruct (disk w) as [db|] eqn:Hd.
  - left. exists db. repeat split. now apply view_all_records_healthy.
  - right. eexists. rewrite <- Hd. now apply view_all_records_no_table.
Qed.

(** *** view_record_by_id *)

Lemma view_record_by_id_bound (w : world) (i : Z) :
  int64 i = true ->
  view_record_by_id Healthy i w =
  match disk w with
  | Some db =>
      (Ok (option_map fields (find (fun r => id r =? i) (users db))), w)
  | None =>
      (Ok None,
       {| disk := disk w; clock := clock w;
          screen := screen w ++
            [Error (Py.lit "Error fetching record: "
                    ++ Py.lit "no such table: users")] |})
  end.
Proof.
  intros Hi. destruct w as [d c s].
  unfold view_record_by_id, try_except, bind, get_connection, execute.
  cbn [condition contents disk clock screen bind_parameters bind_parameter].
  rewrite Hi. destruct d as [db|]; [|reflexivity].
  unfold sql_select_by_id, on_users.
  destruct (find (fun r => id r =? i) (users db)); reflexivity.
Qed.

Lemma view_record_by_id_unbound (w : world) (i : Z) :
  int64 i = false ->
  view_record_by_id Healthy i w =
  (Ok None,
   {| disk := disk w; clock := clock w;
      screen := screen w ++
        [Error (Py.lit "Error fetching record: "
                ++ Py.lit "Python int too large to convert to SQLite INTEGER")] |}).
Proof.
  intros Hi. destruct w as [d c s].
  unfold view_record_by_id, try_except, bind, get_connection, execute.
  cbn [condition contents disk clock screen bind_parameters bind_parameter].
  rewrite Hi. reflexivity.
Qed.

Lemma view_record_by_id_healthy (w : world) (db : database) (i : Z) :
  disk w = Some db -> int64 i = true ->
  view_record_by_id Healthy i w =
  (Ok (option_map fields (find (fun r => id r =? i) (users db))), w).
Proof.
  intros Hd Hi. rewrite view_record_by_id_bound by assumption. now rewrite Hd.
Qed.

Lemma view_record_by_id_faulty (w : world) (x : str) (i : Z) :
  view_record_by_id (Faulty x) i w =
  (Ok None,
   {| disk := disk w; clock := clock w;
      screen := screen w ++ [Error (Py.lit "Error fetching record: " ++ x)] |}).
Proof. reflexivity. Qed.

(** The two ways [view_record_by_id] can end. *)
Lemma view_record_by_id_outcome (eng : engine) (i : Z) (w : world) :
  (exists db,
     eng = Healthy /\ disk w = Some db /\ int64 i = true
     /\ view_record_by_id eng i w
        = (Ok (option_map fields (find (fun r => id r =? i) (users db))), w))
  \/ (exists msg,
        view_record_by_id eng i w
        = (Ok None,
           {| disk := disk w; clock := clock w;
              screen := screen w ++
                [Error (Py.lit "Error fetching record: " ++ msg)] |})).
Proof.
  destruct eng as [|x]; [|right; eexists; reflexivity].
  destruct (int64 i) eqn:Hi.
  - rewrite view_record_by_id_bound by assumption.
    destruct (disk w) as [db|] eqn:Hd; [|right; eexists; reflexivity].
    left. exists db. now repeat split.
  - right. eexists. now apply view_record_by_id_unbound.
Qed.

(** *** update_record *)

Lemma update_record_bound (w : world) (i : Z) (n e p : str) (a : Z) :
  bind_parameters [a_str n; a_str e; a_str p; an_int a; an_int i] = Ok tt ->
  update_record Healthy i n e p a w =
  match disk w with
  | Some db =>
      (Ok true,
       {| disk := Some {| users := List.map (set_fields i n e p a) (users db);
                          sqlite_sequence := sqlite_sequence db |};
          clock := clock w; screen := screen w |})
  | None =>
      (Ok false,
       {| disk := disk w; clock := clock w;
          screen := screen w ++
            [Error (Py.lit "Error updating record: "
                    ++ Py.lit "no such table: users")] |})
  end.
Proof.
  intros Hb. destruct w as [d c s].
  unfold update_record, try_except, bind, get_connection, execute.
  cbn [condition contents disk clock screen]. rewrite Hb.
  destruct d as [db|]; reflexivity.
Qed.

Lemma update_record_unbound (w : world) (i : Z) (n e p : str) (a : Z)
    (msg : str) :
  bind_parameters [a_str n; a_str e; a_str p; an_int a; an_int i]
  = Raise msg ->
  update_record Healthy i n e p a w =
  (Ok false,
   {| disk := disk w; clock := clock w;
      screen := screen w ++ [Error (Py.lit "Error updating record: " ++ msg)] |}).
Proof.
  intros Hb. destruct w as [d c s].
  unfold update_record, try_except, bind, get_connection, execute.
  cbn [condition contents disk clock screen]. rewrite Hb. reflexivity.
Qed.

Lemma update_record_healthy (w : world) (db : database) (i : Z)
    (n e p : str) (a : Z) :
  disk w = Some db -> bindable_fields n e p a = true -> int64 i = true ->
  update_record Healthy i n e p a w =
  (Ok true,
   {| disk := Some {| users := List.map (set_fields i n e p a) (users db);
                      sqlite_sequence := sqlite_sequence db |};
      clock := clock w; screen := screen w |}).
Proof.
  intros Hd Hb Hi. rewrite update_record_bound by now apply bind_fields_id.
  now rewrite Hd.
Qed.

Lemma update_record_faulty (w : world) (x : str) (i : Z)
    (n e p : str) (a : Z) :
  update_record (Faulty x) i n e p a w =
  (Ok false,
   {| disk := disk w; clock := clock w;
      screen := screen w ++ [Error (Py.lit "Error updating record: " ++ x)] |}).
Proof. reflexivity. Qed.

(** The two ways [update_record] can end. *)
Lemma update_record_outcome (eng : engine) (i : Z) (n e p : str) (a : Z)
    (w : world) :
  (exists db,
     eng = Healthy /\ disk w = Some db
     /\ update_record eng i n e p a w
        = (Ok true,
           {| disk := Some {| users := List.map (set_fields i n e p a)
                                         (users db);
                              sqlite_sequence := sqlite_sequence db |};
              clock := clock w; screen := screen w |}))
  \/ (exists msg,
        update_record eng i n e p a w
        = (Ok false,
           {| disk := disk w; clock := clock w;
              screen := screen w ++
                [Error (Py.lit "Error updating record: " ++ msg)] |})).
Proof.
  destruct eng as [|x]; [|right; eexists; reflexivity].
  destruct (bind_parameters_cases
              [a_str n; a_str e; a_str p; an_int a; an_int i])
    as [Hb|[msg Hb]].
  - rewrite (update_record_bound w i n e p a Hb).
    destruct (disk w) as [db|] eqn:Hd; [|right; eexists; reflexivity].
    left. exists db. now repeat split.
  - right. exists msg. now apply update_record_unbound.
Qed.

(** *** delete_record *)

Lemma delete_record_bound (w : world) (i : Z) :
  int64 i = true ->
  delete_record Healthy i w =
  match disk w with
  | Some db =>
      (Ok true,
       {| disk := Some {| users := filter (fun r => negb (id r =? i))
                                     (users db);
                          sqlite_sequence := sqlite_sequence db |};
          clock := clock w; screen := screen w |})
  | None =>
      (Ok false,
       {| disk := disk w; clock := clock w;
          screen := screen w ++
            [Error (Py.lit "Error deleting record: "
                    ++ Py.lit "no such table: users")] |})
  end.
Proof.
  intros Hi. destruct w as [d c s].
  unfold delete_record, try_except, bind, get_connection, execute.
  cbn [condition contents disk clock screen bind_parameters bind_parameter].
  rewrite Hi. destruct d as [db|]; reflexivity.
Qed.

Lemma delete_record_unbound (w : world) (i : Z) :
  int64 i = false ->
  delete_record Healthy i w =
  (Ok false,
   {| disk := disk w; clock := clock w;
      screen := screen w ++
        [Error (Py.lit "Error deleting record: "
                ++ Py.lit "Python int too large to convert to SQLite INTEGER")] |}).
Proof.
  intros Hi. destruct w as [d c s].
  unfold delete_record, try_except, bind, get_connection, execute.
  cbn [condition contents disk clock screen bind_parameters bind_parameter].
  rewrite Hi. reflexivity.
Qed.

Lemma delete_record_healthy (w : world) (db : database) (i : Z) :
  disk w = Some db -> int64 i = true ->
  delete_record Healthy i w =
  (Ok true,
   {| disk := Some {| users := filter (fun r => negb (id r =? i)) (users db);
                      sqlite_sequence := sqlite_sequence db |};
      clock := clock w; screen := screen w |}).
Proof.
  intros Hd Hi. rewrite delete_record_bound by assumption. now rewrite Hd.
Qed.

Lemma delete_record_faulty (w : world) (x : str) (i : Z) :
  delete_record (Faulty x) i w =
  (Ok false,
   {| disk := disk w; clock := clock w;
      screen := screen w ++ [Error (Py.lit "Error deleting record: " ++ x)] |}).
Proof. reflexivity. Qed.

(** The two ways [delete_record] can end. *)
Lemma delete_record_outcome (eng : engine) (i : Z) (w : world) :
  (exists db,
     eng = Healthy /\ disk w = Some db /\ int64 i = true
     /\ delete_record eng i w
        = (Ok true,
           {| disk := Some {| users := filter (fun r => negb (id r =? i))
                                         (users db);
                              sqlite_sequence := sqlite_sequence db |};
              clock := clock w; screen := screen w |}))
  \/ (exists msg,
        delete_record eng i w
        = (Ok false,
           {| disk := disk w; clock := clock w;
              screen := screen w ++
                [Error (Py.lit "Error deleting record: " ++ msg)] |})).
Proof.
  destruct eng as [|x]; [|right; eexists; reflexivity].
  destruct (int64 i) eqn:Hi.
  - rewrite delete_record_bound by assumption.
    destruct (disk w) as [db|] eqn:Hd; [|right; eexists; reflexivity].
    left. exists db. now repeat split.
  - right. eexists. now apply delete_record_unbound.
Qed.

(** *** init_database *)

Lemma init_database_healthy (w : world) :
  init_database Healthy w =
  (Ok tt,
   {| disk := Some (match disk w with Some db => db | None => empty_table end);
      clock := clock w; screen := screen w |}).
Proof.
  unfold_store. cbn. destruct (disk w); reflexivity.
Qed.

Lemma init_database_faulty (w : world) (x : str) :
  init_database (Faulty x) w = (Raise x, w).
Proof. reflexivity. Qed.

(** ** Rows and ids *)

Lemma insert_desc_perm (r : user) (l : list user) :
  Permutation (r :: l) (insert_desc r l).
Proof.
  induction l as [|x t IH]; cbn.
  - apply Permutation_refl.
  - destruct (id x <=? id r).
    + apply Permutation_refl.
    + eapply perm_trans; [apply perm_swap|]. now apply perm_skip.
Qed.

Lemma order_by_id_desc_perm (l : list user) :
  Permutation l (order_by_id_desc l).
Proof.
  induction l as [|x t IH]; cbn.
  - apply perm_nil.
  - eapply perm_trans; [|apply insert_desc_perm]. now apply perm_skip.
Qed.

Lemma insert_desc_sorted (r : user) (l : list user) :
  sorted_desc l -> sorted_desc (insert_desc r l).
Proof.
  unfold sorted_desc. induction 1 as [|x t Hs IH Hx]; cbn.
  - constructor; constructor.
  - destruct (id x <=? id r) eqn:E.
    + apply Z.leb_le in E. constructor.
      * now constructor.
      * constructor; [exact E|].
        rewrite Forall_forall in *. intros y Hy. specialize (Hx y Hy). lia.
    + apply Z.leb_gt in E. constructor; [exact IH|].
      rewrite Forall_forall in *. intros y Hy.
      apply (Permutation_in _ (Permutation_sym (insert_desc_perm r t))) in Hy.
      destruct Hy as [<-|Hy]; [lia|now apply Hx].
Qed.

Lemma order_by_id_desc_sorted (l : list user) :
  sorted_desc (order_by_id_desc l).
Proof.
  induction l as [|x t IH]; cbn.
  - constructor.
  - now apply insert_desc_sorted.
Qed.

Lemma order_by_id_desc_In (r : user) (l : list user) :
  In r (order_by_id_desc l) <-> In r l.
Proof.
  split; apply Permutation_in;
    [apply Permutation_sym|]; apply order_by_id_desc_perm.
Qed.

Lemma sorted_desc_before (l : list user) (x y : user) :
  sorted_desc l -> In x l -> In y l -> id y < id x -> before x y l.
Proof.
  intros Hs Hx Hy Hlt.
  destruct (in_split _ _ Hx) as (l1 & rest & ->).
  assert (Hrest : In y rest).
  { apply in_app_or in Hy. destruct Hy as [Hy|[Hy|Hy]].
    - exfalso. revert Hs Hy. unfold sorted_desc. clear Hx.
      induction l1 as [|z t IH]; cbn; intros Hs Hy; [contradiction|].
      inversion Hs as [|? ? Ht Hz]; subst. destruct Hy as [->|Hy].
      + rewrite Forall_forall in Hz.
        specialize (Hz x (in_or_app _ _ _ (or_intror (in_eq _ _)))). lia.
      + now apply IH.
    - subst. lia.
    - exact Hy. }
  destruct (in_split _ _ Hrest) as (l2 & l3 & ->).
  now exists l1, l2, l3.
Qed.

Lemma find_id_none (i : Z) (l : list user) :
  ~ In i (ids l) -> find (fun r => id r =? i) l = None.
Proof.
  induction l as [|x t IH]; cbn; intros H; [reflexivity|].
  destruct (id x =? i) eqn:E.
  - apply Z.eqb_eq in E. exfalso. apply H. now left.
  - apply IH. intros Hin. apply H. now right.
Qed.

Lemma find_id_some (i : Z) (l : list user) (r : user) :
  find (fun x => id x =? i) l = Some r -> In r l /\ id r = i.
Proof.
  intros H. apply find_some in H. destruct H as [Hin E].
  apply Z.eqb_eq in E. now split.
Qed.

Lemma find_id_unique (l : list user) (r : user) :
  NoDup (ids l) -> In r l -> find (fun x => id x =? id r) l = Some r.
Proof.
  induction l as [|x t IH]; cbn; intros Hnd Hin; [contradiction|].
  inversion Hnd as [|? ? Hx Ht]; subst.
  destruct Hin as [->|Hin].
  - now rewrite Z.eqb_refl.
  - destruct (id x =? id r) eqn:E.
    + apply Z.eqb_eq in E. exfalso. apply Hx. rewrite E.
      unfold ids. now apply in_map.
    + now apply IH.
Qed.

Lemma last_rowid_bound (l : list user) (r : user) :
  In r l -> id r <= last_rowid l.
Proof.
  induction l as [|x t IH]; cbn; intros H; [contradiction|].
  destruct H as [->|H]; [lia|]. specialize (IH H). unfold last_rowid in IH. lia.
Qed.

Lemma last_rowid_le (l : list user) (m : Z) :
  0 <= m -> Forall (fun r => id r <= m) l -> last_rowid l <= m.
Proof.
  intros Hm. induction 1 as [|x t Hx Ht IH]; cbn; [exact Hm|].
  unfold last_rowid in IH. lia.
Qed.

Lemma new_rowid_some (db : database) (v : Z) :
  new_rowid db = Some v ->
  sqlite_sequence db < v /\ last_rowid (users db) < v /\ v <= MAX_ROWID.
Proof.
  unfold new_rowid.
  destruct (MAX_ROWID <=? last_rowid (users db)) eqn:E1; cbn; [discriminate|].
  destruct (MAX_ROWID <=? sqlite_sequence db) eqn:E2; cbn; [discriminate|].
  apply Z.leb_gt in E1, E2. intros [= <-]. lia.
Qed.

Lemma new_rowid_fresh (db : database) (v : Z) :
  new_rowid db = Some v -> ~ In v (ids (users db)).
Proof.
  intros H Hin. apply new_rowid_some in H. destruct H as (_ & H & _).
  unfold ids in Hin. apply in_map_iff in Hin. destruct Hin as (r & <- & Hr).
  apply last_rowid_bound in Hr. lia.
Qed.


Lemma ids_set_fields (i : Z) (n e p : str) (a : Z) (l : list user) :
  ids (List.map (set_fields i n e p a) l) = ids l.
Proof.
  unfold ids. rewrite map_map. apply map_ext. intros r. unfold set_fields.
  now destruct (id r =? i).
Qed.


Lemma delete_absent (i : Z) (l : list user) :
  ~ In i (ids l) -> filter (fun r => negb (id r =? i)) l = l.
Proof.
  induction l as [|x t IH]; cbn; intros H; [reflexivity|].
  destruct (id x =? i) eqn:E; cbn.
  - apply Z.eqb_eq in E. exfalso. apply H. now left.
  - f_equal. apply IH. intros Hin. apply H. now right.
Qed.

Lemma delete_removes (i : Z) (l : list user) :
  ~ In i (ids (filter (fun r => negb (id r =? i)) l)).
Proof.
  unfold ids. rewrite in_map_iff. intros (r & E & Hr).
  apply filter_In in Hr. destruct Hr as [_ Hr].
  rewrite E, Z.eqb_refl in Hr. discriminate.
Qed.

Lemma ids_filter (f : Z -> bool) (l : list user) :
  ids (filter (fun r => f (id r)) l) = filter f (ids l).
Proof.
  unfold ids. induction l as [|x t IH]; cbn; [reflexivity|].
  destruct (f (id x)); cbn; now rewrite IH.
Qed.

Lemma last_rowid_nonneg (l : list user) : 0 <= last_rowid l.
Proof.
  induction l as [|x t IH]; cbn; [lia|]. unfold last_rowid in IH. lia.
Qed.

Lemma int64_bounds (z : Z) :
  int64 z = true <-> -9223372036854775808 <= z <= 9223372036854775807.
Proof.
  unfold int64. rewrite andb_true_iff, !Z.leb_le. reflexivity.
Qed.

Lemma new_rowid_fits (db : database) (v : Z) :
  new_rowid db = Some v -> int64 v = true.
Proof.
  intros H. apply new_rowid_some in H. destruct H as (_ & H1 & H2).
  pose proof (last_rowid_nonneg (users db)). apply int64_bounds.
  unfold MAX_ROWID in *. lia.
Qed.


Lemma absent_when_unbound (i : Z) (l : list user) :
  int64 i = false -> ~ In i (ids l).
Proof.
  intros Hi Hin. unfold ids in Hin. apply in_map_iff in Hin.
  destruct Hin as (r & <- & _). rewrite id_fits in Hi. discriminate Hi.
Qed.

Lemma ids_fit (i : Z) (l : list user) : In i (ids l) -> int64 i = true.
Proof.
  unfold ids. intros H. apply in_map_iff in H.
  destruct H as (r & <- & _). apply id_fits.
Qed.

(** ** The store functions one after the other *)

Lemma stored_some (w : world) (db : database) :
  disk w = Some db -> stored w = users db.
Proof. unfold stored. now intros ->. Qed.

Lemma valid_jane :
  valid_fields (Py.lit "Jane Doe") (Py.lit "jane@x.com") (Py.lit "555-1234") 30.
Proof.
  unfold valid_fields. repeat split; try discriminate; try lia.
  vm_compute. tauto.
Qed.

Lemma bindable_jane :
  bindable_fields (Py.lit "Jane Doe") (Py.lit "jane@x.com")
    (Py.lit "555-1234") 30 = true.
Proof. vm_compute. reflexivity. Qed.







Lemma stored_id_fits (w : world) (i : Z) :
  In i (stored_ids w) -> int64 i = true.
Proof.
  unfold stored_ids, ids. intros H. apply in_map_iff in H.
  destruct H as (r & <- & _). apply id_fits.
Qed.






(** C5. ListAll: with a healthy engine [view_all_records] returns the rows
    of the table, all of them and no other, ordered by id descending: of two
    listed records the one with the larger id comes first; an empty table
    gives no row. *)
Theorem list_all_ordered (w : world) (db : database) :
  disk w = Some db ->
  exists df,
    view_all_records Healthy w = (Ok df, w)
    /\ Permutation (users db) (rows df)
    /\ sorted_desc (rows df)
    /\ (forall x y, In x (rows df) -> In y (rows df) -> id y < id x ->
        before x y (rows df))
    /\ (users db = [] -> rows df = []).
Proof.
  intros Hd. eexists.
  split; [apply (view_all_records_healthy w db); assumption|]. cbn.
  split; [apply order_by_id_desc_perm|].
  split; [apply order_by_id_desc_sorted|].
  split.
  - intros x y. apply sorted_desc_before, order_by_id_desc_sorted.
  - now intros ->.
Qed.

Lemma list_all_ordered_witness :
  let db := {| users := [mk_user 1 (Py.lit "a") (Py.lit "a@x") (Py.lit "1") 30 10;
                         mk_user 2 (Py.lit "b") (Py.lit "b@x") (Py.lit "2") 40 20];
               sqlite_sequence := 2 |} in
  let w := {| disk := Some db; clock := 100; screen := [] |} in
  exists df,
    view_all_records Healthy w = (Ok df, w)
    /\ Permutation (users db) (rows df)
    /\ sorted_desc (rows df)
    /\ (forall x y, In x (rows df) -> In y (rows df) -> id y < id x ->
        before x y (rows df))
    /\ (users db = [] -> rows df = []).
Proof.
  intros db w. apply (list_all_ordered w db). reflexivity.
Defined.

(** C6. Delete, then GetById and ListAll, for every id: after
    [delete_record] with a healthy engine, [view_record_by_id] returns None
    for that id and [view_all_records] lists no record with that id,
    whatever the engine does during these two calls; [delete_record]
    returns True when the id fits 64 bits (an id that does not is the id of
    no record, and the call returns False). *)
Theorem delete_then_get (w : world) (db : database) (i : Z) :
  disk w = Some db ->
  let w' := snd (delete_record Healthy i w) in
  (forall eng, fst (view_record_by_id eng i w') = Ok None)
  /\ (forall eng, exists df,
        fst (view_all_records eng w') = Ok df /\ ~ In i (ids (rows df)))
  /\ (int64 i = true -> delete_record Healthy i w = (Ok true, w'))
  /\ (int64 i = false -> fst (delete_record Healthy i w) = Ok false).
Proof.
  intros Hd w'.
  assert (Hgone : exists db', disk w' = Some db' /\ ~ In i (ids (users db'))).
  { unfold w'. destruct (int64 i) eqn:Hi.
    - rewrite (delete_record_healthy w db) by assumption. cbn [snd disk].
      eexists. split; [reflexivity|]. cbn [users]. apply delete_removes.
    - rewrite delete_record_unbound by assumption. cbn [snd disk].
      exists db. split; [exact Hd|]. now apply absent_when_unbound. }
  destruct Hgone as (db' & Hd' & Hgone).
  split; [|split; [|split]].
  - intros eng.
    destruct (view_record_by_id_outcome eng i w')
      as [(db2 & _ & Hd2 & _ & E)|(msg & E)]; rewrite E; [|reflexivity].
    assert (db2 = db') by congruence. subst db2. cbn [fst].
    now rewrite find_id_none.
  - intros eng.
    destruct (view_all_records_outcome eng w')
      as [(db2 & _ & Hd2 & E)|(msg & E)]; rewrite E.
    + assert (db2 = db') by congruence. subst db2.
      eexists. split; [reflexivity|]. cbn [rows]. intros Hin. apply Hgone.
      unfold ids in *. apply in_map_iff in Hin.
      destruct Hin as (r & Er & Hr). apply in_map_iff. exists r.
      split; [exact Er|]. now apply (proj1 (order_by_id_desc_In _ _)) in Hr.
    + exists pd_DataFrame. split; [reflexivity|]. intros [].
  - intros Hi. unfold w'.
    now rewrite (delete_record_healthy w db) by assumption.
  - intros Hi. now rewrite delete_record_unbound by assumption.
Qed.

Lemma delete_then_get_witness :
  let w' := snd (delete_record Healthy 1 jane_world) in
  (forall eng, fst (view_record_by_id eng 1 w') = Ok None)
  /\ (forall eng, exists df,
        fst (view_all_records eng w') = Ok df /\ ~ In 1 (ids (rows df)))
  /\ delete_record Healthy 1 jane_world = (Ok true, w').
Proof.
  intro w'.
  pose proof (delete_then_get jane_world jane_db 1 eq_refl)
    as (H1 & H2 & H3 & _).
  split; [exact H1|]. split; [exact H2|]. apply H3. vm_compute. reflexivity.
Defined.

(** ** Point lookup *)

Lemma view_record_by_id_absent (w : world) (eng : engine) (i : Z) :
  ~ In i (stored_ids w) -> fst (view_record_by_id eng i w) = Ok None.
Proof.
  intros Hin.
  destruct (view_record_by_id_outcome eng i w)
    as [(db & _ & Hd & _ & E)|(msg & E)]; rewrite E; [|reflexivity].
  unfold stored_ids in Hin. rewrite (stored_some w db Hd) in Hin.
  cbn [fst]. now rewrite find_id_none.
Qed.

(** C7. GetById: for an id with no row in the store [view_record_by_id]
    returns None, whatever the engine does; for the id of a stored record
    (ids being distinct) and a healthy engine it returns the name, email,
    phone and age of that record. *)
Theorem get_by_id_absent_present (w : world) (i : Z) :
  (~ In i (stored_ids w) ->
   forall eng, fst (view_record_by_id eng i w) = Ok None)
  /\ (forall db r,
        disk w = Some db -> NoDup (stored_ids w) -> In r (stored w) ->
        id r = i ->
        view_record_by_id Healthy i w
        = (Ok (Some (name r, email r, phone r, age r)), w)).
Proof.
  split.
  - intros Hin eng. now apply view_record_by_id_absent.
  - intros db r Hd Hnd Hr <-.
    unfold stored_ids in Hnd. rewrite (stored_some w db Hd) in *.
    rewrite (view_record_by_id_healthy w db) by (assumption || apply id_fits).
    now rewrite find_id_unique.
Qed.

Lemma get_by_id_absent_present_witness :
  (forall eng, fst (view_record_by_id eng 7 jane_world) = Ok None)
  /\ view_record_by_id Healthy 1 jane_world
     = (Ok (Some (Py.lit "Jane Doe", Py.lit "jane@x.com",
                  Py.lit "555-1234", 30)), jane_world).
Proof.
  split.
  - apply (proj1 (get_by_id_absent_present jane_world 7)).
    vm_compute. intros [H|[]]. discriminate H.
  - apply (proj2 (get_by_id_absent_present jane_world 1) jane_db jane).
    + reflexivity.
    + vm_compute. constructor; [intros []|constructor].
    + now left.
    + reflexivity.
Defined.

Lemma find_restamp (stamp : user -> Z) (i : Z) (l : list user) :
  option_map fields
    (find (fun r => id r =? i)
       (List.map (fun r => {| rowid_of := rowid_of r; name := name r;
                              email := email r; phone := phone r;
                              age := age r; created_at := stamp r |}) l))
  = option_map fields (find (fun r => id r =? i) l).
Proof.
  induction l as [|x t IH]; cbn [List.map find]; [reflexivity|].
  change (id {| rowid_of := rowid_of x; name := name x; email := email x;
                phone := phone x; age := age x; created_at := stamp x |})
    with (id x).
  destruct (id x =? i); [reflexivity|exact IH].
Qed.

(** C10. GetById returns the four fields and nothing else: what
    [view_record_by_id] returns for an id is the name, email, phone and age
    of a stored row with that id (for a healthy engine and an id in the
    store it does return them), and the same value comes back when the
    [created_at] of the rows are replaced by any others. *)
Theorem get_by_id_four_fields (w : world) (eng : engine) (i : Z) :
  (forall t, fst (view_record_by_id eng i w) = Ok (Some t) ->
     exists r, In r (stored w) /\ id r = i
               /\ t = (name r, email r, phone r, age r))
  /\ (In i (stored_ids w) ->
      exists r, In r (stored w) /\ id r = i
                /\ fst (view_record_by_id Healthy i w)
                   = Ok (Some (name r, email r, phone r, age r)))
  /\ (forall stamp,
        fst (view_record_by_id eng i (restamp stamp w))
        = fst (view_record_by_id eng i w)).
Proof.
  split; [|split].
  - intros t H.
    destruct (view_record_by_id_outcome eng i w)
      as [(db & _ & Hd & _ & E)|(msg & E)]; rewrite E in H;
      [|discriminate H].
    cbn in H. rewrite (stored_some w db Hd).
    destruct (find _ (users db)) as [r|] eqn:F; [|discriminate H].
    apply find_id_some in F. destruct F as [Hr Ei].
    exists r. injection H as <-. now repeat split.
  - intros Hin. pose proof (stored_id_fits w i Hin) as Hi.
    destruct (disk w) as [db|] eqn:Hd.
    + unfold stored_ids in Hin. rewrite (stored_some w db Hd) in *.
      rewrite (view_record_by_id_healthy w db) by assumption. cbn.
      destruct (find (fun r => id r =? i) (users db)) as [r|] eqn:F.
      * destruct (find_id_some _ _ _ F) as [Hr E]. now exists r.
      * exfalso. unfold ids in Hin. apply in_map_iff in Hin.
        destruct Hin as (r & E & Hr).
        apply (find_none _ _ F) in Hr. cbn in Hr.
        rewrite E, Z.eqb_refl in Hr. discriminate Hr.
    + unfold stored_ids, stored in Hin. rewrite Hd in Hin. destruct Hin.
  - intros stamp. destruct eng as [|x]; [|reflexivity].
    destruct (int64 i) eqn:Hi.
    + rewrite !view_record_by_id_bound by assumption.
      destruct w as [[db|] c s]; [|reflexivity].
      unfold restamp. cbn [disk clock screen fst users].
      now rewrite find_restamp.
    + now rewrite !view_record_by_id_unbound by assumption.
Qed.

Lemma get_by_id_four_fields_witness :
  (exists r, In r (stored jane_world) /\ id r = 1
             /\ (Py.lit "Jane Doe", Py.lit "jane@x.com", Py.lit "555-1234", 30)
                = (name r, email r, phone r, age r))
  /\ (exists r, In r (stored jane_world) /\ id r = 1
                /\ fst (view_record_by_id Healthy 1 jane_world)
                   = Ok (Some (name r, email r, phone r, age r))).
Proof.
  split.
  - apply (proj1 (get_by_id_four_fields jane_world Healthy 1)). reflexivity.
  - apply (proj1 (proj2 (get_by_id_four_fields jane_world Healthy 1))).
    vm_compute. now left.
Defined.

(** ** A read that fails *)

(** C9. When the read fails, [view_all_records] does not raise: it returns
    [pd.DataFrame()] (it returns a DataFrame whatever the engine does),
    which has no row and is empty just as the DataFrame of an empty table
    is, so that each of the three pages that call it goes on exactly as it
    does for an empty table. *)
Theorem list_all_failure_is_empty (w : world) (x : str) :
  view_all_records (Faulty x) w
  = (Ok pd_DataFrame,
     {| disk := disk w; clock := clock w;
        screen := screen w ++ [Error (Py.lit "Error reading records: " ++ x)] |})
  /\ (forall eng, exists df w', view_all_records eng w = (Ok df, w'))
  /\ rows pd_DataFrame = []
  /\ df_empty pd_DataFrame = true
  /\ (forall w0 db, disk w0 = Some db -> users db = [] ->
      exists df,
        view_all_records Healthy w0 = (Ok df, w0)
        /\ rows df = []
        /\ df_empty df = true
        /\ (forall w1, view_records_body pd_DataFrame w1
                       = view_records_body df w1)
        /\ (forall c choice form button w1,
              update_record_body c choice form button pd_DataFrame w1
              = update_record_body c choice form button df w1)
        /\ (forall c choice button w1,
              delete_record_body c choice button pd_DataFrame w1
              = delete_record_body c choice button df w1)).
Proof.
  split; [reflexivity|]. split.
  { intros [|y]; [|eexists; eexists; reflexivity].
    destruct (disk w) as [db|] eqn:Hd; eexists; eexists.
    - now apply (view_all_records_healthy w db).
    - now apply view_all_records_no_table. }
  split; [reflexivity|]. split; [reflexivity|].
  intros w0 db Hd Hempty. eexists.
  split; [apply (view_all_records_healthy w0 db); assumption|].
  rewrite Hempty. cbn [order_by_id_desc fold_right rows].
  repeat split.
Qed.

Lemma list_all_failure_is_empty_witness :
  exists df,
    view_all_records Healthy empty_world = (Ok df, empty_world)
    /\ rows df = []
    /\ df_empty df = true
    /\ (forall w1, view_records_body pd_DataFrame w1 = view_records_body df w1)
    /\ (forall c choice form button w1,
          update_record_body c choice form button pd_DataFrame w1
          = update_record_body c choice form button df w1)
    /\ (forall c choice button w1,
          delete_record_body c choice button pd_DataFrame w1
          = delete_record_body c choice button df w1).
Proof.
  apply (proj2 (proj2 (proj2 (proj2
           (list_all_failure_is_empty empty_world (Py.lit "disk I/O error")))))
           empty_world empty_table); reflexivity.
Defined.

(** ** Rules of the program logic *)

Section Rules.

Variable I : option database -> Prop.

Lemma triple_ret {A : Type} (a : A) (Q : A -> Prop) :
  Q a -> triple I (ret a) Q.
Proof. intros HQ w Hw. cbn. now split. Qed.

Lemma triple_raise {A : Type} (e : str) (Q : A -> Prop) :
  triple I (raise e) Q.
Proof. intros w Hw. exact Hw. Qed.

Lemma triple_bind {A B : Type} (m : M A) (f : A -> M B)
    (Q : A -> Prop) (R : B -> Prop) :
  triple I m Q -> (forall a, Q a -> triple I (f a) R) ->
  triple I (bind m f) R.
Proof.
  intros Hm Hf w Hw. unfold bind. specialize (Hm w Hw).
  destruct (m w) as [[a|e] w1].
  - destruct Hm as [Hw1 Ha]. exact (Hf a Ha w1 Hw1).
  - exact Hm.
Qed.

Lemma triple_try_except {A : Type} (body : M A) (handler : str -> M A)
    (Q R : A -> Prop) :
  triple I body Q -> (forall a, Q a -> R a) ->
  (forall e, triple I (handler e) R) ->
  triple I (try_except body handler) R.
Proof.
  intros Hb HQR Hh w Hw. unfold try_except. specialize (Hb w Hw).
  destruct (body w) as [[a|e] w1].
  - destruct Hb as [Hw1 Ha]. split; [exact Hw1|now apply HQR].
  - exact (Hh e w1 Hb).
Qed.

Lemma triple_weaken {A : Type} (m : M A) (Q R : A -> Prop) :
  triple I m Q -> (forall a, Q a -> R a) -> triple I m R.
Proof.
  intros Hm HQR w Hw. specialize (Hm w Hw).
  destruct (m w) as [[a|e] w1]; [|exact Hm].
  destruct Hm as [Hw1 Ha]. split; [exact Hw1|now apply HQR].
Qed.

Lemma triple_show (e : element) : triple I (show e) (fun _ => True).
Proof. intros w Hw. cbn. now split. Qed.

Lemma triple_get_connection (eng : engine) :
  triple I (get_connection eng) (fun conn => I (contents conn)).
Proof. intros w Hw. cbn. now split. Qed.

Lemma triple_execute {A : Type} (conn : connection) (stmt : statement A)
    (parameters : list parameter) :
  I (contents conn) -> keeps I stmt ->
  triple I (execute conn stmt parameters) (fun r => I (contents (snd r))).
Proof.
  intros Hc Hs w Hw. unfold execute.
  destruct (condition conn); [|exact Hw].
  destruct (bind_parameters parameters) as [_|e]; [|exact Hw].
  specialize (Hs (contents conn) Hc).
  destruct (stmt (contents conn)) as [[a file']|e]; [|exact Hw].
  cbn. now split.
Qed.

Lemma triple_commit (conn : connection) :
  I (contents conn) -> triple I (commit conn) (fun _ => True).
Proof. intros Hc w Hw. cbn. now split. Qed.

Lemma triple_close (conn : connection) :
  triple I (close conn) (fun _ => True).
Proof. now apply triple_ret. Qed.

Lemma triple_current_timestamp (lat : N) :
  triple I (current_timestamp lat) (fun _ => True).
Proof. intros w Hw. cbn. now split. Qed.

Lemma triple_number_input (lo hi v entry : Z) :
  triple I (number_input lo hi v entry) (fun z => lo <= z <= hi).
Proof.
  unfold number_input.
  destruct (v <? lo) eqn:E1; [apply triple_raise|].
  destruct (hi <? v) eqn:E2; [apply triple_raise|].
  apply triple_ret. apply Z.ltb_ge in E1, E2.
  destruct ((lo <=? entry) && (entry <=? hi)) eqn:E; [|lia].
  apply andb_true_iff in E. destruct E as [Ea Eb].
  apply Z.leb_le in Ea, Eb. lia.
Qed.

(** A statement that leaves the file alone keeps every property. *)
Lemma keeps_read {A : Type} (f : database -> A) :
  keeps I (on_users (fun db => Ok (f db, db))).
Proof. intros [db|] H; cbn; [exact H|exact Logic.I]. Qed.

(** *** The store functions *)

Lemma triple_init_database (eng : engine) :
  keeps I sql_create_table ->
  triple I (init_database eng) (fun _ => True).
Proof.
  intros Hk. unfold init_database.
  eapply triple_bind; [apply triple_get_connection|]. intros conn Hc.
  eapply triple_bind; [now apply triple_execute|]. intros r Hr.
  eapply triple_bind; [now apply triple_commit|]. intros _ _.
  apply triple_close.
Qed.

Lemma triple_insert_record (eng : engine) (lat : N) (n e p : str) (a : Z) :
  (forall now, keeps I (sql_insert now n e p a)) ->
  triple I (insert_record eng lat n e p a) (fun _ => True).
Proof.
  intros Hk. unfold insert_record.
  eapply triple_try_except with (Q := fun _ => True); [|tauto|].
  - eapply triple_bind; [apply triple_get_connection|]. intros conn Hc.
    eapply triple_bind; [apply triple_current_timestamp|]. intros now _.
    eapply triple_bind; [now apply triple_execute|]. intros r Hr.
    eapply triple_bind; [now apply triple_commit|]. intros _ _.
    eapply triple_bind; [apply triple_close|]. intros _ _.
    now apply triple_ret.
  - intros x. eapply triple_bind; [apply triple_show|]. intros _ _.
    now apply triple_ret.
Qed.

Lemma triple_update_record (eng : engine) (i : Z) (n e p : str) (a : Z) :
  keeps I (sql_update i n e p a) ->
  triple I (update_record eng i n e p a) (fun _ => True).
Proof.
  intros Hk. unfold update_record.
  eapply triple_try_except with (Q := fun _ => True); [|tauto|].
  - eapply triple_bind; [apply triple_get_connection|]. intros conn Hc.
    eapply triple_bind; [now apply triple_execute|]. intros r Hr.
    eapply triple_bind; [now apply triple_commit|]. intros _ _.
    eapply triple_bind; [apply triple_close|]. intros _ _.
    now apply triple_ret.
  - intros x. eapply triple_bind; [apply triple_show|]. intros _ _.
    now apply triple_ret.
Qed.

Lemma triple_delete_record (eng : engine) (i : Z) :
  keeps I (sql_delete i) ->
  triple I (delete_record eng i) (fun _ => True).
Proof.
  intros Hk. unfold delete_record.
  eapply triple_try_except with (Q := fun _ => True); [|tauto|].
  - eapply triple_bind; [apply triple_get_connection|]. intros conn Hc.
    eapply triple_bind; [now apply triple_execute|]. intros r Hr.
    eapply triple_bind; [now apply triple_commit|]. intros _ _.
    eapply triple_bind; [apply triple_close|]. intros _ _.
    now apply triple_ret.
  - intros x. eapply triple_bind; [apply triple_show|]. intros _ _.
    now apply triple_ret.
Qed.

Lemma triple_view_all_records (eng : engine) :
  triple I (view_all_records eng) (fun _ => True).
Proof.
  unfold view_all_records, read_sql_query.
  eapply triple_try_except with (Q := fun _ => True); [|tauto|].
  - eapply triple_bind; [apply triple_get_connection|]. intros conn Hc.
    eapply triple_bind with (Q := fun _ => True).
    + eapply triple_bind;
        [apply triple_execute; [exact Hc|apply keeps_read]|].
      intros r _. now apply triple_ret.
    + intros df _. eapply triple_bind; [apply triple_close|]. intros _ _.
      now apply triple_ret.
  - intros x. eapply triple_bind; [apply triple_show|]. intros _ _.
    now apply triple_ret.
Qed.

Lemma triple_view_record_by_id (eng : engine) (i : Z) :
  triple I (view_record_by_id eng i) (fun _ => True).
Proof.
  unfold view_record_by_id.
  eapply triple_try_except with (Q := fun _ => True); [|tauto|].
  - eapply triple_bind; [apply triple_get_connection|]. intros conn Hc.
    eapply triple_bind;
      [apply triple_execute; [exact Hc|apply keeps_read]|].
    intros r _. eapply triple_bind; [apply triple_close|]. intros _ _.
    now apply triple_ret.
  - intros x. eapply triple_bind; [apply triple_show|]. intros _ _.
    now apply triple_ret.
Qed.

End Rules.

(** ** The validation of the forms *)

Lemma strip_truthy (s : str) : Py.truthy (Py.strip s) = true -> s <> [].
Proof. intros H ->. discriminate H. Qed.

Lemma contains_In (c : N) (s : str) : Py.contains c s = true <-> In c s.
Proof.
  unfold Py.contains. rewrite existsb_exists. split.
  - intros (y & Hy & E). apply N.eqb_eq in E. now subst.
  - intros H. exists c. split; [exact H|apply N.eqb_refl].
Qed.

Lemma triple_snd {A : Type} (I : option database -> Prop) (m : M A)
    (Q : A -> Prop) (w : world) :
  triple I m Q -> I (disk w) -> I (disk (snd (m w))).
Proof.
  intros Hm Hw. specialize (Hm w Hw).
  destruct (m w) as [[a|e] w1]; cbn; [now destruct Hm|exact Hm].
Qed.

Section Pages.

Variable I : option database -> Prop.
Variable form : entries.

(** The statements that the pages may run with the texts of [form] and an
    age that passed the checks keep [I]. *)
Hypothesis insert_keeps :
  forall now a,
    valid_fields (entry_name form) (entry_email form) (entry_phone form) a ->
    keeps I (sql_insert now (entry_name form) (entry_email form)
               (entry_phone form) a).
Hypothesis update_keeps :
  forall i a,
    valid_fields (entry_name form) (entry_email form) (entry_phone form) a ->
    keeps I (sql_update i (entry_name form) (entry_email form)
               (entry_phone form) a).
Hypothesis delete_keeps : forall i, keeps I (sql_delete i).
Hypothesis create_keeps : keeps I sql_create_table.

Lemma checked_fields (a : Z) :
  negb (Py.truthy (Py.strip (entry_name form))) = false ->
  negb (Py.truthy (Py.strip (entry_email form))) = false ->
  negb (Py.truthy (Py.strip (entry_phone form))) = false ->
  negb (Py.contains Py.at_sign (entry_email form)) = false ->
  1 <= a <= 120 ->
  valid_fields (entry_name form) (entry_email form) (entry_phone form) a.
Proof.
  intros E1 E2 E3 E4 Ha. apply negb_false_iff in E1, E3, E4.
  repeat split; try lia.
  - now apply strip_truthy.
  - now apply contains_In.
  - now apply strip_truthy.
Qed.

Lemma triple_add_record_page (c : conditions) (submit_button : bool) :
  triple I (add_record_page c form submit_button) (fun _ => True).
Proof.
  unfold add_record_page.
  eapply triple_bind; [apply triple_show|]. intros _ _.
  eapply triple_bind; [apply triple_number_input|]. intros a Ha.
  destruct submit_button; [|now apply triple_ret].
  destruct (negb (Py.truthy (Py.strip (entry_name form)))) eqn:E1;
    [apply triple_show|].
  destruct (negb (Py.truthy (Py.strip (entry_email form)))) eqn:E2;
    [apply triple_show|].
  destruct (negb (Py.truthy (Py.strip (entry_phone form)))) eqn:E3;
    [apply triple_show|].
  destruct (negb (Py.contains Py.at_sign (entry_email form))) eqn:E4;
    [apply triple_show|].
  destruct (a <? 1); [apply triple_show|].
  eapply triple_bind.
  - apply triple_insert_record. intros now.
    apply insert_keeps. now apply checked_fields.
  - intros [|] _; apply triple_show.
Qed.

Lemma triple_update_record_body (c : conditions) (choice : nat)
    (update_button : bool) (df : DataFrame) :
  triple I (update_record_body c choice form update_button df)
    (fun _ => True).
Proof.
  unfold update_record_body.
  destruct (df_empty df); [apply triple_show|].
  eapply triple_bind; [apply triple_view_record_by_id|].
  intros [[[[n e] p] a0]|] _; [|now apply triple_ret].
  eapply triple_bind; [apply triple_show|]. intros _ _.
  eapply triple_bind; [apply triple_number_input|]. intros a Ha.
  destruct update_button; [|now apply triple_ret].
  destruct (negb (Py.truthy (Py.strip (entry_name form)))) eqn:E1;
    [apply triple_show|].
  destruct (negb (Py.truthy (Py.strip (entry_email form)))) eqn:E2;
    [apply triple_show|].
  destruct (negb (Py.truthy (Py.strip (entry_phone form)))) eqn:E3;
    [apply triple_show|].
  destruct (negb (Py.contains Py.at_sign (entry_email form))) eqn:E4;
    [apply triple_show|].
  destruct (a <? 1); [apply triple_show|].
  eapply triple_bind.
  - apply triple_update_record.
    apply update_keeps. now apply checked_fields.
  - intros [|] _; apply triple_show.
Qed.

Lemma triple_delete_record_body (c : conditions) (choice : nat)
    (delete_button : bool) (df : DataFrame) :
  triple I (delete_record_body c choice delete_button df) (fun _ => True).
Proof.
  unfold delete_record_body.
  destruct (df_empty df); [apply triple_show|].
  eapply triple_bind; [apply triple_view_record_by_id|].
  intros [[[[n e] p] a0]|] _; [|now apply triple_ret].
  eapply triple_bind; [apply triple_show|]. intros _ _.
  eapply triple_bind; [apply triple_show|]. intros _ _.
  destruct delete_button; [|now apply triple_ret].
  eapply triple_bind; [now apply triple_delete_record|].
  intros [|] _; [|apply triple_show].
  eapply triple_bind; [apply triple_show|]. intros _ _.
  now apply triple_ret.
Qed.

Lemma triple_view_records_page (c : conditions) :
  triple I (view_records_page c) (fun _ => True).
Proof.
  unfold view_records_page, view_records_body.
  eapply triple_bind; [apply triple_view_all_records|]. intros df _.
  destruct (df_empty df); [apply triple_show|].
  eapply triple_bind; apply triple_show || (intros; apply triple_show).
Qed.

Lemma triple_update_record_page (c : conditions) (choice : nat)
    (update_button : bool) :
  triple I (update_record_page c choice form update_button) (fun _ => True).
Proof.
  unfold update_record_page.
  eapply triple_bind; [apply triple_view_all_records|]. intros df _.
  apply triple_update_record_body.
Qed.

Lemma triple_delete_record_page (c : conditions) (choice : nat)
    (delete_button : bool) :
  triple I (delete_record_page c choice delete_button) (fun _ => True).
Proof.
  unfold delete_record_page.
  eapply triple_bind; [apply triple_view_all_records|]. intros df _.
  apply triple_delete_record_body.
Qed.

End Pages.

(** ** What the statements keep *)

Lemma keeps_on_users {A : Type} (I : option database -> Prop)
    (f : database -> result (A * database)) :
  (forall db a db', I (Some db) -> f db = Ok (a, db') -> I (Some db')) ->
  keeps I (on_users f).
Proof.
  intros H [db|] Hdb; cbn; [|exact Logic.I].
  destruct (f db) as [[a db']|e] eqn:E; [|exact Logic.I].
  now apply (H db a db').
Qed.

Lemma all_valid_create : keeps all_valid sql_create_table.
Proof. intros [db|] H; cbn; [exact H|constructor]. Qed.

Lemma all_valid_insert (now : Z) (n e p : str) (a : Z) :
  valid_fields n e p a -> keeps all_valid (sql_insert now n e p a).
Proof.
  intros Hv. apply keeps_on_users. intros db [] db' Hdb.
  destruct (new_rowid db) as [v|]; [|discriminate]. intros [= <-]. cbn in *.
  apply Forall_app. split; [exact Hdb|]. constructor; [exact Hv|constructor].
Qed.

Lemma all_valid_update (i : Z) (n e p : str) (a : Z) :
  valid_fields n e p a -> keeps all_valid (sql_update i n e p a).
Proof.
  intros Hv. apply keeps_on_users. intros db [] db' Hdb [= <-]. cbn in *.
  rewrite Forall_forall in *. intros r Hr. apply in_map_iff in Hr.
  destruct Hr as (r0 & <- & Hr0). unfold set_fields.
  destruct (id r0 =? i); [exact Hv|now apply Hdb].
Qed.

Lemma all_valid_delete (i : Z) : keeps all_valid (sql_delete i).
Proof.
  apply keeps_on_users. intros db [] db' Hdb [= <-]. cbn in *.
  rewrite Forall_forall in *. intros r Hr. apply filter_In in Hr.
  now apply Hdb.
Qed.

Lemma consistent_create : keeps consistent sql_create_table.
Proof.
  intros [db|] H; cbn; [exact H|].
  repeat split; try constructor; lia.
Qed.

Lemma consistent_insert (now : Z) (n e p : str) (a : Z) :
  keeps consistent (sql_insert now n e p a).
Proof.
  apply keeps_on_users. intros db [] db' (Hnd & Hb & Hs).
  destruct (new_rowid db) as [v|] eqn:Hv; [|discriminate]. intros [= <-].
  pose proof (new_rowid_fresh db v Hv) as Hfresh.
  pose proof (id_mk_user v n e p a now (new_rowid_fits db v Hv)) as Hid.
  apply new_rowid_some in Hv. cbn [users sqlite_sequence consistent].
  repeat split; try lia.
  - unfold ids in *. rewrite map_app. cbn [List.map]. rewrite Hid.
    apply NoDup_app_remove_l with (l := []). cbn [app].
    apply Permutation_NoDup with (l := v :: List.map id (users db)).
    + apply Permutation_cons_append.
    + now constructor.
  - apply Forall_app. split.
    + rewrite Forall_forall in *. intros r Hr. specialize (Hb r Hr). lia.
    + constructor; [rewrite Hid; lia|constructor].
Qed.

Lemma consistent_update (i : Z) (n e p : str) (a : Z) :
  keeps consistent (sql_update i n e p a).
Proof.
  apply keeps_on_users. intros db [] db' (Hnd & Hb & Hs) [= <-]. cbn.
  rewrite ids_set_fields. repeat split; try assumption; try lia.
  rewrite Forall_forall in *. intros r Hr. apply in_map_iff in Hr.
  destruct Hr as (r0 & <- & Hr0). specialize (Hb r0 Hr0).
  unfold set_fields. now destruct (id r0 =? i).
Qed.

Lemma consistent_delete (i : Z) : keeps consistent (sql_delete i).
Proof.
  apply keeps_on_users. intros db [] db' (Hnd & Hb & Hs) [= <-]. cbn.
  repeat split; try assumption; try lia.
  - rewrite (ids_filter (fun j => negb (j =? i))). now apply NoDup_filter.
  - rewrite Forall_forall in *. intros r Hr. apply filter_In in Hr.
    now apply Hb.
Qed.

(** ** Sessions: every stored record is valid *)

Lemma all_valid_app (c : conditions) (op : operation) :
  triple all_valid (app c op) (fun _ => True).
Proof.
  unfold app.
  eapply triple_bind; [apply triple_init_database, all_valid_create|].
  intros _ _. destruct op as [|form b|choice form b|choice b].
  - apply triple_view_records_page.
  - apply triple_add_record_page. intros now a. apply all_valid_insert.
  - apply triple_update_record_page. intros i a. apply all_valid_update.
  - apply triple_delete_record_page. apply all_valid_delete.
Qed.

Lemma all_valid_session (steps : list (conditions * operation)) (w : world) :
  all_valid (disk w) -> all_valid (disk (session w steps)).
Proof.
  revert w. induction steps as [|step rest IH]; intros w Hw; [exact Hw|].
  cbn. apply IH. unfold run.
  now apply (triple_snd all_valid _ _ _ (all_valid_app (fst step) (snd step))).
Qed.

Lemma bad_texts_not_valid (form : entries) (a : Z) :
  bad_texts form ->
  ~ valid_fields (entry_name form) (entry_email form) (entry_phone form) a.
Proof. intros [H|[H|H]] (H1 & H2 & H3 & _); tauto. Qed.

(** C2, as stated, fails for the age: a submission with an age outside 1
    to 120 is not rejected. The check of the forms has no upper bound, and
    the widget hands on its own value for an entry outside its bounds: with
    500 typed as age and valid texts, the Add page stores a record of age
    25 and the Update page rewrites the record with its stored age. *)
Lemma age_out_of_range_not_rejected :
  let form := {| entry_name := text_lit "Jane Roe"; entry_age := 500;
                 entry_email := text_lit "roe@x.com";
                 entry_phone := text_lit "555-9999" |} in
  ~ valid_fields (entry_name form) (entry_email form) (entry_phone form)
      (entry_age form)
  /\ stored (snd (add_record_page fair form true empty_world))
     = [mk_user 1 (Py.lit "Jane Roe") (Py.lit "roe@x.com")
          (Py.lit "555-9999") 25 1001]
  /\ stored jane_world
     = [mk_user 1 (Py.lit "Jane Doe") (Py.lit "jane@x.com")
          (Py.lit "555-1234") 30 1000]
  /\ stored (snd (update_record_page fair 0 form true jane_world))
     = [mk_user 1 (Py.lit "Jane Roe") (Py.lit "roe@x.com")
          (Py.lit "555-9999") 30 1000].
Proof.
  cbv zeta. split; [|repeat split; vm_compute; reflexivity].
  intros (_ & _ & _ & H). cbn in H. lia.
Qed.

(** C2, amended. Every record in the store meets the constraints of the
    data model (name and phone not empty, an at sign in email, age from 1
    to 120) after any session that starts on a new file, whatever the user
    types and whatever the engine does. The pages see to it in two ways: a
    submission of the Add or of the Update form whose texts break the
    constraints is rejected and leaves the file as it was; and the age that
    the widget of either form hands to the script is from 1 to 120 whatever
    was typed. *)
Theorem persisted_records_valid (start : Z)
    (steps : list (conditions * operation)) :
  Forall valid_user (stored (session (fresh start) steps))
  /\ (forall w c choice form button,
        bad_texts form ->
        disk (snd (add_record_page c form button w)) = disk w
        /\ disk (snd (update_record_page c choice form button w)) = disk w)
  /\ (forall value entry w age' w',
        number_input 1 120 value entry w = (Ok age', w') ->
        1 <= age' <= 120).
Proof.
  split; [|split].
  - pose proof (all_valid_session steps (fresh start) Logic.I) as H.
    unfold stored. destruct (disk (session (fresh start) steps)); [exact H|].
    constructor.
  - intros w c choice form button Hbad. split.
    + apply (triple_snd (fun file => file = disk w) _ (fun _ => True));
        [|reflexivity].
      apply triple_add_record_page. intros now a Hv.
      now apply bad_texts_not_valid with (a := a) in Hbad.
    + apply (triple_snd (fun file => file = disk w) _ (fun _ => True));
        [|reflexivity].
      apply triple_update_record_page. intros i a Hv.
      now apply bad_texts_not_valid with (a := a) in Hbad.
  - intros value entry w age' w' H.
    pose proof (triple_number_input (fun _ => True) 1 120 value entry w
                  Logic.I) as Ht.
    rewrite H in Ht. exact (proj2 Ht).
Qed.

Lemma persisted_records_valid_witness :
  Forall valid_user
    (stored (session (fresh 0) [(fair, Add_Record jane_form true)]))
  /\ disk (snd (add_record_page fair nameless_form true jane_world))
     = disk jane_world
  /\ disk (snd (update_record_page fair 0 nameless_form true jane_world))
     = disk jane_world
  /\ 1 <= 25 <= 120.
Proof.
  pose proof (persisted_records_valid 0 [(fair, Add_Record jane_form true)])
    as (H1 & H2 & H3).
  split; [exact H1|].
  destruct (H2 jane_world fair 0%nat nameless_form true) as [Ha Hu].
  { left. reflexivity. }
  split; [exact Ha|]. split; [exact Hu|].
  apply (H3 25 500 jane_world 25 jane_world). reflexivity.
Defined.

(** ** Calls: ids are unique and never handed out twice *)

Lemma consistent_perform (w : world) (c : call) :
  consistent (disk w) -> consistent (disk (perform w c)).
Proof.
  intros Hw.
  destruct c as [eng|eng lat n e p a|eng|eng i|eng i n e p a|eng i];
    unfold perform;
    apply (triple_snd consistent _ (fun _ => True)); try exact Hw.
  - apply triple_init_database, consistent_create.
  - apply triple_insert_record. intros now. apply consistent_insert.
  - apply triple_view_all_records.
  - apply triple_view_record_by_id.
  - apply triple_update_record, consistent_update.
  - apply triple_delete_record, consistent_delete.
Qed.

Lemma consistent_perform_all (calls : list call) (w : world) :
  consistent (disk w) -> consistent (disk (perform_all w calls)).
Proof.
  revert w. induction calls as [|c rest IH]; intros w Hw; [exact Hw|].
  cbn. apply IH. now apply consistent_perform.
Qed.

Lemma consistent_stored_ids (w : world) :
  consistent (disk w) ->
  NoDup (stored_ids w) /\ Forall (fun i => 1 <= i <= high_water w) (stored_ids w).
Proof.
  unfold stored_ids, stored, high_water, consistent.
  destruct (disk w) as [db|].
  - intros (Hnd & Hb & _). split; [exact Hnd|].
    unfold ids. now rewrite Forall_map.
  - intros _. split; constructor.
Qed.

Lemma new_ids_incl (w w' : world) :
  incl (stored_ids w') (stored_ids w) -> new_ids w w' = [].
Proof.
  unfold new_ids. generalize (stored_ids w) as l.
  induction (stored_ids w') as [|x t IH]; intros l H; [reflexivity|]. cbn.
  assert (Hx : existsb (Z.eqb x) l = true).
  { apply existsb_exists. exists x. split; [apply H; now left|].
    apply Z.eqb_refl. }
  rewrite Hx. cbn. apply IH. intros y Hy. apply H. now right.
Qed.

Lemma filter_all {A : Type} (l : list A) : filter (fun _ => true) l = l.
Proof. induction l as [|x t IH]; cbn; now rewrite ?IH. Qed.

Lemma ids_step_same (w w' : world) :
  stored_ids w' = stored_ids w -> high_water w' = high_water w ->
  ids_step w w'.
Proof.
  intros Hs Hh. unfold ids_step.
  rewrite (new_ids_incl w w') by (rewrite Hs; apply incl_refl).
  rewrite Hs, Hh. repeat split; try constructor; try lia.
  exists (fun _ => true). now rewrite filter_all, app_nil_r.
Qed.

Lemma ids_step_unchanged (w w' : world) : disk w' = disk w -> ids_step w w'.
Proof.
  intros H. apply ids_step_same; unfold stored_ids, stored, high_water;
    now rewrite H.
Qed.

Lemma new_ids_append (l : list Z) (v : Z) :
  ~ In v l ->
  filter (fun i => negb (existsb (Z.eqb i) l)) (l ++ [v]) = [v].
Proof.
  intros Hv. rewrite filter_app. cbn.
  assert (Hx : existsb (Z.eqb v) l = false).
  { destruct (existsb (Z.eqb v) l) eqn:E; [|reflexivity].
    apply existsb_exists in E. destruct E as (y & Hy & E).
    apply Z.eqb_eq in E. now subst. }
  rewrite Hx. cbn.
  assert (Hl : forall l0, incl l0 l ->
                 filter (fun i => negb (existsb (Z.eqb i) l)) l0 = []).
  { induction l0 as [|x t IH]; intros H; [reflexivity|]. cbn.
    assert (E : existsb (Z.eqb x) l = true).
    { apply existsb_exists. exists x. split; [apply H; now left|].
      apply Z.eqb_refl. }
    rewrite E. cbn. apply IH. intros y Hy. apply H. now right. }
  now rewrite (Hl l (incl_refl l)).
Qed.

Lemma ids_step_insert (w w' : world) (db : database) (v : Z) (r : user) :
  disk w = Some db ->
  disk w' = Some {| users := users db ++ [r]; sqlite_sequence := v |} ->
  id r = v -> ~ In v (ids (users db)) -> sqlite_sequence db < v ->
  ids_step w w'.
Proof.
  intros Hd Hd' Hr Hfresh Hlt.
  unfold ids_step, new_ids, stored_ids, stored, high_water.
  rewrite Hd, Hd'. cbn [users sqlite_sequence].
  assert (E : ids (users db ++ [r]) = ids (users db) ++ [v]).
  { unfold ids. rewrite map_app. cbn. now rewrite Hr. }
  rewrite E, (new_ids_append _ v Hfresh).
  repeat split; try lia.
  - exists (fun _ => true). now rewrite filter_all.
  - constructor; [intros []|constructor].
  - constructor; [lia|constructor].
Qed.

Lemma ids_step_perform (w : world) (c : call) :
  consistent (disk w) -> ids_step w (perform w c).
Proof.
  intros Hc.
  destruct c as [eng|eng lat n e p a|eng|eng i|eng i n e p a|eng i];
    cbn [perform].
  - destruct eng as [|x]; [|apply ids_step_unchanged; reflexivity].
    rewrite init_database_healthy. apply ids_step_same;
      unfold stored_ids, stored, high_water; cbn; now destruct (disk w).
  - destruct (insert_record_outcome eng lat n e p a w)
      as [(db & v & _ & Hd & Hv & E)|(msg & E)]; rewrite E; cbn [snd];
      [|now apply ids_step_unchanged].
    eapply (ids_step_insert w _ db v); try reflexivity; try assumption.
    + apply id_mk_user. now apply (new_rowid_fits db).
    + now apply new_rowid_fresh.
    + now apply new_rowid_some in Hv.
  - destruct (view_all_records_outcome eng w)
      as [(db & _ & _ & E)|(msg & E)]; rewrite E;
      now apply ids_step_unchanged.
  - destruct (view_record_by_id_outcome eng i w)
      as [(db & _ & _ & _ & E)|(msg & E)]; rewrite E;
      now apply ids_step_unchanged.
  - destruct (update_record_outcome eng i n e p a w)
      as [(db & _ & Hd & E)|(msg & E)]; rewrite E; cbn [snd];
      [|now apply ids_step_unchanged].
    apply ids_step_same; unfold stored_ids, stored, high_water;
      rewrite Hd; cbn; [apply ids_set_fields|reflexivity].
  - destruct (delete_record_outcome eng i w)
      as [(db & _ & Hd & _ & E)|(msg & E)]; rewrite E; cbn [snd];
      [|now apply ids_step_unchanged].
    unfold ids_step. rewrite new_ids_incl.
    + unfold stored_ids, stored, high_water. rewrite Hd. cbn.
      repeat split; try constructor; try lia.
      exists (fun j => negb (j =? i)). rewrite app_nil_r.
      apply (ids_filter (fun j => negb (j =? i))).
    + unfold stored_ids, stored. rewrite Hd. cbn.
      rewrite (ids_filter (fun j => negb (j =? i))). apply incl_filter.
Qed.

Lemma assigned_above (calls : list call) (w : world) :
  consistent (disk w) ->
  NoDup (assigned w calls)
  /\ Forall (fun i => high_water w < i) (assigned w calls).
Proof.
  revert w. induction calls as [|c rest IH]; intros w Hc; cbn.
  - split; constructor.
  - destruct (IH (perform w c) (consistent_perform w c Hc)) as [Hnd Hab].
    destruct (ids_step_perform w c Hc) as (_ & Hle & Hn & Hb).
    rewrite Forall_forall in *. split.
    + apply NoDup_app; try assumption.
      intros j Hj Hj'. specialize (Hb j Hj). specialize (Hab j Hj'). lia.
    + intros j Hj. apply in_app_or in Hj.
      destruct Hj as [Hj|Hj]; [specialize (Hb j Hj)|specialize (Hab j Hj)];
        lia.
Qed.

Lemma update_record_ids (eng : engine) (i : Z) (n e p : str) (a : Z)
    (w : world) :
  stored_ids (snd (update_record eng i n e p a w)) = stored_ids w.
Proof.
  destruct (update_record_outcome eng i n e p a w)
    as [(db & _ & Hd & E)|(msg & E)]; rewrite E; [|reflexivity].
  unfold stored_ids, stored. rewrite Hd. cbn. apply ids_set_fields.
Qed.

(** C8. Ids along any sequence of calls of the store on a new file: the ids
    in the store are distinct at every point; the ids handed out are all
    different, so that an id is never used again, also after its record is
    deleted; a call leaves the ids that stay as they were and in their
    order, new ones coming last; and [update_record] changes no id. *)
Theorem ids_unique_never_reused (start : Z) (calls : list call) :
  let w := perform_all (fresh start) calls in
  NoDup (stored_ids w)
  /\ NoDup (assigned (fresh start) calls)
  /\ (forall c, exists keep,
        stored_ids (perform w c)
        = filter keep (stored_ids w) ++ new_ids w (perform w c))
  /\ (forall eng i n e p a,
        stored_ids (snd (update_record eng i n e p a w)) = stored_ids w).
Proof.
  intro w.
  assert (Hw : consistent (disk w))
    by (apply consistent_perform_all; exact Logic.I).
  split; [now apply consistent_stored_ids|].
  split; [apply assigned_above; exact Logic.I|].
  split; [intros c; now apply ids_step_perform|].
  intros. apply update_record_ids.
Qed.

(** Insert, delete, insert again: the second record gets a new id. *)
Example assigned_after_delete :
  let calls := [Initialize Healthy;
                Insert Healthy 1 (Py.lit "Jane Doe") (Py.lit "jane@x.com")
                  (Py.lit "555-1234") 30;
                Delete Healthy 1;
                Insert Healthy 1 (Py.lit "John Doe") (Py.lit "john@x.com")
                  (Py.lit "555-4321") 40] in
  assigned (fresh 0) calls = [1; 2]
  /\ stored_ids (perform_all (fresh 0) calls) = [2].
Proof. vm_compute. split; reflexivity. Qed.

(** The scenario of the specification: insert Jane Doe into a new store,
    find her first in the list, delete her, find the list without her. *)
Example scenario_jane :
  let w1 := perform_all (fresh 0)
              [Initialize Healthy;
               Insert Healthy 1 (Py.lit "Jane Doe") (Py.lit "jane@x.com")
                 (Py.lit "555-1234") 30] in
  let w2 := perform w1 (Delete Healthy 1) in
  option_map (fun df => hd_error (rows df))
    (match fst (view_all_records Healthy w1) with
     | Ok df => Some df
     | Raise _ => None
     end)
  = Some (Some (mk_user 1 (Py.lit "Jane Doe") (Py.lit "jane@x.com")
                  (Py.lit "555-1234") 30 1))
  /\ fst (delete_record Healthy 1 w1) = Ok true
  /\ fst (view_all_records Healthy w2)
     = Ok {| columns := users_columns; rows := [] |}.
Proof. vm_compute. repeat split. Qed.

(** * More about the Record Store *)

(** ** init_database *)

(** X1. [init_database] creates the table on a new file, leaves an existing
    table and the rest of the world as they are, so that a second call
    changes nothing; and, having no try/except, it lets a failure of the
    engine escape, with nothing written. *)
Theorem init_database_idempotent (w : world) :
  (disk w = None ->
   init_database Healthy w
   = (Ok tt, {| disk := Some empty_table; clock := clock w;
                screen := screen w |}))
  /\ (forall db, disk w = Some db -> init_database Healthy w = (Ok tt, w))
  /\ init_database Healthy (snd (init_database Healthy w))
     = (Ok tt, snd (init_database Healthy w))
  /\ (forall x, init_database (Faulty x) w = (Raise x, w)).
Proof.
  repeat split.
  - intros Hd. rewrite init_database_healthy. now rewrite Hd.
  - intros db Hd. rewrite init_database_healthy. rewrite Hd.
    destruct w as [d c s]. cbn in *. now subst d.
  - rewrite !init_database_healthy. cbn. reflexivity.
Qed.

Lemma init_database_idempotent_witness :
  init_database Healthy (fresh 0)
  = (Ok tt, {| disk := Some empty_table; clock := 0; screen := [] |})
  /\ init_database Healthy jane_world = (Ok tt, jane_world).
Proof.
  split.
  - apply (proj1 (init_database_idempotent (fresh 0))). reflexivity.
  - apply (proj1 (proj2 (init_database_idempotent jane_world)) jane_db).
    reflexivity.
Defined.

(** ** Failures are caught and reported *)

(** X2. None of the five store functions lets an exception escape: whatever
    the engine does and whatever is in the file, each one returns a
    value. *)
Theorem store_functions_never_raise (eng : engine) (w : world) (lat : N)
    (i : Z) (n e p : str) (a : Z) :
  (exists b w', insert_record eng lat n e p a w = (Ok b, w'))
  /\ (exists df w', view_all_records eng w = (Ok df, w'))
  /\ (exists r w', view_record_by_id eng i w = (Ok r, w'))
  /\ (exists b w', update_record eng i n e p a w = (Ok b, w'))
  /\ (exists b w', delete_record eng i w = (Ok b, w')).
Proof.
  split; [|split; [|split; [|split]]].
  - destruct (insert_record_outcome eng lat n e p a w)
      as [(db & v & _ & _ & _ & E)|(msg & E)]; rewrite E; eauto.
  - destruct (view_all_records_outcome eng w)
      as [(db & _ & _ & E)|(msg & E)]; rewrite E; eauto.
  - destruct (view_record_by_id_outcome eng i w)
      as [(db & _ & _ & _ & E)|(msg & E)]; rewrite E; eauto.
  - destruct (update_record_outcome eng i n e p a w)
      as [(db & _ & _ & E)|(msg & E)]; rewrite E; eauto.
  - destruct (delete_record_outcome eng i w)
      as [(db & _ & _ & _ & E)|(msg & E)]; rewrite E; eauto.
Qed.

(** X3. The boolean that [insert_record], [update_record] and
    [delete_record] return tells what happened: False means that the file
    is as it was and that one [st.error] with the exception was put on the
    page; True means that nothing was put on the page (and, for
    [insert_record], that the table has one row more). *)
Theorem write_result_is_faithful (eng : engine) (lat : N) (i : Z)
    (n e p : str) (a : Z) (w w' : world) :
  (insert_record eng lat n e p a w = (Ok false, w') ->
   disk w' = disk w
   /\ exists msg, screen w' = screen w ++
                    [Error (Py.lit "Error inserting record: " ++ msg)])
  /\ (insert_record eng lat n e p a w = (Ok true, w') ->
      screen w' = screen w
      /\ List.length (stored w') = S (List.length (stored w)))
  /\ (update_record eng i n e p a w = (Ok false, w') ->
      disk w' = disk w
      /\ exists msg, screen w' = screen w ++
                       [Error (Py.lit "Error updating record: " ++ msg)])
  /\ (update_record eng i n e p a w = (Ok true, w') -> screen w' = screen w)
  /\ (delete_record eng i w = (Ok false, w') ->
      disk w' = disk w
      /\ exists msg, screen w' = screen w ++
                       [Error (Py.lit "Error deleting record: " ++ msg)])
  /\ (delete_record eng i w = (Ok true, w') -> screen w' = screen w).
Proof.
  split; [|split; [|split; [|split; [|split]]]]; intros H.
  - destruct (insert_record_outcome eng lat n e p a w)
      as [(db & v & _ & _ & _ & E)|(msg & E)];
      rewrite E in H; [discriminate H|].
    injection H as <-. cbn. split; [reflexivity|now exists msg].
  - destruct (insert_record_outcome eng lat n e p a w)
      as [(db & v & _ & Hd & _ & E)|(msg & E)];
      rewrite E in H; [|discriminate H].
    injection H as <-. unfold stored. rewrite Hd. cbn.
    split; [reflexivity|]. rewrite length_app. cbn. lia.
  - destruct (update_record_outcome eng i n e p a w)
      as [(db & _ & _ & E)|(msg & E)];
      rewrite E in H; [discriminate H|].
    injection H as <-. cbn. split; [reflexivity|now exists msg].
  - destruct (update_record_outcome eng i n e p a w)
      as [(db & _ & _ & E)|(msg & E)];
      rewrite E in H; [|discriminate H].
    now injection H as <-.
  - destruct (delete_record_outcome eng i w)
      as [(db & _ & _ & _ & E)|(msg & E)];
      rewrite E in H; [discriminate H|].
    injection H as <-. cbn. split; [reflexivity|now exists msg].
  - destruct (delete_record_outcome eng i w)
      as [(db & _ & _ & _ & E)|(msg & E)];
      rewrite E in H; [|discriminate H].
    now injection H as <-.
Qed.

Lemma write_result_is_faithful_witness :
  let failed := snd (insert_record (Faulty (Py.lit "disk I/O error")) 1
                       (Py.lit "Jane Doe") (Py.lit "jane@x.com")
                       (Py.lit "555-1234") 30 jane_world) in
  let done := snd (insert_record Healthy 1
                     (Py.lit "Jane Doe") (Py.lit "jane@x.com")
                     (Py.lit "555-1234") 30 jane_world) in
  (disk failed = disk jane_world
   /\ exists msg, screen failed = screen jane_world ++
                    [Error (Py.lit "Error inserting record: " ++ msg)])
  /\ (screen done = screen jane_world
      /\ List.length (stored done) = S (List.length (stored jane_world))).
Proof.
  intros failed done. split.
  - apply (proj1 (write_result_is_faithful
                    (Faulty (Py.lit "disk I/O error")) 1 0
                    (Py.lit "Jane Doe") (Py.lit "jane@x.com")
                    (Py.lit "555-1234") 30 jane_world failed)).
    reflexivity.
  - apply (proj1 (proj2 (write_result_is_faithful Healthy 1 0
                    (Py.lit "Jane Doe") (Py.lit "jane@x.com")
                    (Py.lit "555-1234") 30 jane_world done))).
    reflexivity.
Defined.

(** X4. The two reading functions write nothing: after [view_all_records]
    and after [view_record_by_id] the file and the clock are what they
    were; the page is what it was when the read succeeded, and has one
    [st.error] more when it failed. *)
Theorem reads_leave_the_file (eng : engine) (i : Z) (w : world) :
  let w1 := snd (view_all_records eng w) in
  let w2 := snd (view_record_by_id eng i w) in
  disk w1 = disk w /\ clock w1 = clock w
  /\ (screen w1 = screen w
      \/ exists msg, screen w1 = screen w ++
                       [Error (Py.lit "Error reading records: " ++ msg)])
  /\ disk w2 = disk w /\ clock w2 = clock w
  /\ (screen w2 = screen w
      \/ exists msg, screen w2 = screen w ++
                       [Error (Py.lit "Error fetching record: " ++ msg)]).
Proof.
  cbn zeta.
  destruct (view_all_records_outcome eng w)
    as [(db & _ & _ & E1)|(msg1 & E1)]; rewrite E1;
  destruct (view_record_by_id_outcome eng i w)
    as [(db2 & _ & _ & _ & E2)|(msg2 & E2)]; rewrite E2; cbn;
  repeat split; try (now left); right; eexists; reflexivity.
Qed.

(** ** Insert and the reads *)







(** ** What a write leaves alone *)

(** X7. [insert_record] touches no existing row: whatever the engine does,
    the rows after the call are the rows before it, in their order,
    followed by at most one new row. *)
Theorem insert_keeps_rows (eng : engine) (lat : N) (n e p : str) (a : Z)
    (w : world) :
  exists added,
    stored (snd (insert_record eng lat n e p a w)) = stored w ++ added
    /\ (List.length added <= 1)%nat
    /\ (fst (insert_record eng lat n e p a w) = Ok false -> added = []).
Proof.
  destruct (insert_record_outcome eng lat n e p a w)
    as [(db & v & _ & Hd & _ & E)|(msg & E)]; rewrite E.
  - eexists. unfold stored. rewrite Hd. cbn.
    split; [reflexivity|]. split; [cbn; lia|discriminate].
  - exists []. unfold stored. cbn. rewrite app_nil_r.
    split; [reflexivity|]. split; [cbn; lia|reflexivity].
Qed.

Lemma nth_error_set_fields (i : Z) (n e p : str) (a : Z) (l : list user)
    (k : nat) (r : user) :
  nth_error l k = Some r -> id r <> i ->
  nth_error (List.map (set_fields i n e p a) l) k = Some r.
Proof.
  intros Hk Hne. rewrite nth_error_map, Hk. cbn. unfold set_fields.
  apply Z.eqb_neq in Hne. now rewrite Hne.
Qed.

(** X8. [update_record] touches only the rows with the given id: whatever
    the engine does, the table keeps its number of rows, and a row with
    another id is after the call what and where it was before. *)
Theorem update_keeps_other_rows (eng : engine) (i : Z) (n e p : str) (a : Z)
    (w : world) :
  let w' := snd (update_record eng i n e p a w) in
  List.length (stored w') = List.length (stored w)
  /\ (forall k r, nth_error (stored w) k = Some r -> id r <> i ->
      nth_error (stored w') k = Some r).
Proof.
  destruct (update_record_outcome eng i n e p a w)
    as [(db & _ & Hd & E)|(msg & E)]; rewrite E; cbn zeta.
  - unfold stored. rewrite Hd. cbn. split; [apply length_map|].
    intros k r. apply nth_error_set_fields.
  - unfold stored. cbn. split; [reflexivity|]. now intros.
Qed.

Lemma update_keeps_other_rows_witness :
  nth_error
    (stored (snd (update_record Healthy 7 (Py.lit "Jane Roe")
                    (Py.lit "roe@x.com") (Py.lit "555-9999") 31 jane_world)))
    0 = Some jane.
Proof.
  apply (proj2 (update_keeps_other_rows Healthy 7 (Py.lit "Jane Roe")
                  (Py.lit "roe@x.com") (Py.lit "555-9999") 31 jane_world)
           0%nat jane).
  - reflexivity.
  - vm_compute. discriminate.
Defined.

(** ** Writes one after the other *)




Lemma filter_filter_ids (i j : Z) (l : list user) :
  filter (fun r => negb (id r =? j)) (filter (fun r => negb (id r =? i)) l)
  = filter (fun r => negb (id r =? i)) (filter (fun r => negb (id r =? j)) l).
Proof.
  induction l as [|x t IH]; cbn; [reflexivity|].
  destruct (id x =? i) eqn:Ei, (id x =? j) eqn:Ej; cbn;
    rewrite ?Ei, ?Ej; cbn; now rewrite IH.
Qed.

Lemma filter_id_twice (i : Z) (l : list user) :
  filter (fun r => negb (id r =? i)) (filter (fun r => negb (id r =? i)) l)
  = filter (fun r => negb (id r =? i)) l.
Proof.
  induction l as [|x t IH]; cbn; [reflexivity|].
  destruct (id x =? i) eqn:E; cbn; rewrite ?E; cbn; now rewrite IH.
Qed.

(** What [delete_record] leaves in the file, for every id: an id that does
    not fit 64 bits is the id of no row, and the failed call removes
    none. *)
Lemma delete_record_disk (i : Z) (w : world) :
  disk (snd (delete_record Healthy i w))
  = match disk w with
    | Some db =>
        Some {| users := filter (fun r => negb (id r =? i)) (users db);
                sqlite_sequence := sqlite_sequence db |}
    | None => None
    end.
Proof.
  destruct (int64 i) eqn:Hi.
  - rewrite delete_record_bound by assumption.
    destruct (disk w) as [db|] eqn:Hd; reflexivity.
  - rewrite delete_record_unbound by assumption. cbn [snd disk].
    destruct (disk w) as [db|]; [|reflexivity].
    rewrite delete_absent by now apply absent_when_unbound.
    now destruct db.
Qed.

(** X10. [delete_record] removes the rows with the given id and no other:
    with a healthy engine a row is in the table after the call when, and
    only when, it was there before and has another id; deleting the same id
    again changes nothing more, and two deletions give the same file in
    either order. *)
Theorem delete_removes_only_that_id (i j : Z) (w : world) :
  let del (k : Z) (w0 : world) := snd (delete_record Healthy k w0) in
  (forall r, In r (stored (del i w)) <-> In r (stored w) /\ id r <> i)
  /\ disk (del i (del i w)) = disk (del i w)
  /\ disk (del j (del i w)) = disk (del i (del j w)).
Proof.
  cbn zeta. split; [|split].
  - intros r. unfold stored. rewrite delete_record_disk.
    destruct (disk w) as [db|]; [|cbn; tauto].
    cbn [users]. rewrite filter_In, negb_true_iff, Z.eqb_neq. reflexivity.
  - rewrite !delete_record_disk.
    destruct (disk w) as [db|]; [|reflexivity].
    cbn [users sqlite_sequence]. now rewrite filter_id_twice.
  - rewrite !delete_record_disk.
    destruct (disk w) as [db|]; [|reflexivity].
    cbn [users sqlite_sequence]. now rewrite filter_filter_ids.
Qed.

(** ** created_at *)

(** X11. No call of the store changes the [created_at] of a record: a row
    found after a call under an id that was in the store before the call
    has the [created_at] of a row that had this id before the call. *)
Theorem created_at_never_changes (w : world) (c : call) (r' : user) :
  In r' (stored (perform w c)) ->
  In (id r') (stored_ids w) ->
  exists r, In r (stored w) /\ id r = id r'
            /\ created_at r = created_at r'.
Proof.
  intros Hr' Hid.
  destruct c as [eng|eng lat n e p a|eng|eng i|eng i n e p a|eng i];
    cbn [perform] in Hr'.
  - destruct eng as [|x]; [|now exists r'].
    rewrite init_database_healthy in Hr'. unfold stored in *. cbn in Hr'.
    destruct (disk w); [now exists r'|destruct Hr'].
  - destruct (insert_record_outcome eng lat n e p a w)
      as [(db & v & _ & Hd & Hv & E)|(msg & E)]; rewrite E in Hr'.
    + unfold stored_ids, stored in *. rewrite Hd in *.
      cbn [snd disk users] in Hr'.
      apply in_app_or in Hr'. destruct Hr' as [Hr'|[<-|[]]];
        [now exists r'|].
      exfalso. rewrite id_mk_user in Hid by now apply (new_rowid_fits db).
      now apply (new_rowid_fresh db v Hv).
    + now exists r'.
  - destruct (view_all_records_outcome eng w)
      as [(db & _ & _ & E)|(msg & E)]; rewrite E in Hr'; now exists r'.
  - destruct (view_record_by_id_outcome eng i w)
      as [(db & _ & _ & _ & E)|(msg & E)]; rewrite E in Hr';
      now exists r'.
  - destruct (update_record_outcome eng i n e p a w)
      as [(db & _ & Hd & E)|(msg & E)]; rewrite E in Hr'.
    + unfold stored in *. rewrite Hd in *. cbn in Hr'.
      apply in_map_iff in Hr'. destruct Hr' as (r & <- & Hr).
      exists r. split; [exact Hr|]. unfold set_fields.
      now destruct (id r =? i).
    + now exists r'.
  - destruct (delete_record_outcome eng i w)
      as [(db & _ & Hd & _ & E)|(msg & E)]; rewrite E in Hr'.
    + unfold stored in *. rewrite Hd in *. cbn in Hr'.
      apply filter_In in Hr'. now exists r'.
    + now exists r'.
Qed.

Lemma created_at_never_changes_witness :
  let c := Update Healthy 1 (Py.lit "Jane Roe") (Py.lit "roe@x.com")
             (Py.lit "555-9999") 31 in
  let r' := mk_user 1 (Py.lit "Jane Roe") (Py.lit "roe@x.com")
              (Py.lit "555-9999") 31 1000 in
  exists r, In r (stored jane_world) /\ id r = id r'
            /\ created_at r = created_at r'.
Proof.
  intros c r'. apply (created_at_never_changes jane_world c r').
  - vm_compute. now left.
  - vm_compute. now left.
Defined.

(** * More about the pages *)

(** ** Rules for [hoare] *)

Section HoareRules.

Context {A B : Type}.
Variable E : str -> world -> Prop.

Lemma hoare_ret (P : world -> Prop) (a : A) (Q : A -> world -> Prop) :
  (forall w, P w -> Q a w) -> hoare P (ret a) Q E.
Proof. intros H w Hw. cbn. now apply H. Qed.

Lemma hoare_bind (P : world -> Prop) (m : M A) (f : A -> M B)
    (Q : A -> world -> Prop) (R : B -> world -> Prop) :
  hoare P m Q E -> (forall a, hoare (Q a) (f a) R E) ->
  hoare P (bind m f) R E.
Proof.
  intros Hm Hf w Hw. unfold bind. specialize (Hm w Hw).
  destruct (m w) as [[a|e] w1]; [exact (Hf a w1 Hm)|exact Hm].
Qed.

Lemma hoare_consequence (P P' : world -> Prop) (m : M A)
    (Q Q' : A -> world -> Prop) :
  hoare P' m Q' E -> (forall w, P w -> P' w) ->
  (forall a w, Q' a w -> Q a w) -> hoare P m Q E.
Proof.
  intros Hm HP HQ w Hw. specialize (Hm w (HP w Hw)).
  destruct (m w) as [[a|e] w1]; [now apply HQ|exact Hm].
Qed.

Lemma hoare_pure (phi : Prop) (P : world -> Prop) (m : M A)
    (Q : A -> world -> Prop) :
  (phi -> hoare P m Q E) -> hoare (fun w => P w /\ phi) m Q E.
Proof. intros H w [Hw Hphi]. now apply H. Qed.

End HoareRules.

Lemma hoare_show (E : str -> world -> Prop) (P : world -> Prop)
    (e : element) (Q : unit -> world -> Prop) :
  (forall w, P w ->
     Q tt {| disk := disk w; clock := clock w; screen := screen w ++ [e] |}) ->
  hoare P (show e) Q E.
Proof. intros H w Hw. cbn. now apply H. Qed.

Lemma hoare_number_input (E : str -> world -> Prop) (P : world -> Prop)
    (lo hi v entry : Z) :
  lo <= v <= hi ->
  hoare P (number_input lo hi v entry)
    (fun a w => P w /\ lo <= a <= hi) E.
Proof.
  intros Hv w Hw. unfold number_input.
  destruct (v <? lo) eqn:E1; [apply Z.ltb_lt in E1; lia|].
  destruct (hi <? v) eqn:E2; [apply Z.ltb_lt in E2; lia|].
  cbn. split; [exact Hw|].
  destruct ((lo <=? entry) && (entry <=? hi)) eqn:E3; [|lia].
  apply andb_true_iff in E3. destruct E3 as [Ea Eb].
  apply Z.leb_le in Ea, Eb. lia.
Qed.

(** ** The script does not crash *)

Lemma view_all_records_valid (eng : engine) :
  hoare valid_world (view_all_records eng) (fun _ w => valid_world w)
    no_exception.
Proof.
  intros w Hw.
  destruct (view_all_records_outcome eng w)
    as [(db & _ & _ & Ev)|(msg & Ev)]; rewrite Ev; exact Hw.
Qed.

Lemma view_record_by_id_valid (eng : engine) (i : Z) :
  hoare valid_world (view_record_by_id eng i)
    (fun record w =>
       valid_world w
       /\ forall n e p a, record = Some (n, e, p, a) -> 1 <= a <= 120)
    no_exception.
Proof.
  intros w Hw.
  destruct (view_record_by_id_outcome eng i w)
    as [(db & _ & Hd & _ & Ev)|(msg & Ev)]; rewrite Ev.
  - split; [exact Hw|]. intros n e p a Er.
    destruct (find (fun r => id r =? i) (users db)) as [r|] eqn:F;
      [|discriminate Er].
    apply find_id_some in F. destruct F as [Hr _].
    injection Er as _ _ _ <-.
    unfold valid_world, all_valid in Hw. rewrite Hd in Hw.
    rewrite Forall_forall in Hw. now apply (Hw r Hr).
  - split; [exact Hw|]. intros n e p a Er. discriminate Er.
Qed.

Lemma hoare_returns {A : Type} (P : world -> Prop) (m : M A) :
  (forall w, exists a w', m w = (Ok a, w')) ->
  hoare P m (fun _ _ => True) no_exception.
Proof. intros H w _. destruct (H w) as (a & w' & ->). exact Logic.I. Qed.

Lemma insert_record_returns (eng : engine) (lat : N) (n e p : str) (a : Z)
    (w : world) :
  exists b w', insert_record eng lat n e p a w = (Ok b, w').
Proof.
  destruct (insert_record_outcome eng lat n e p a w)
    as [(db & v & _ & _ & _ & E)|(msg & E)]; rewrite E; eauto.
Qed.

Lemma update_record_returns (eng : engine) (i : Z) (n e p : str) (a : Z)
    (w : world) :
  exists b w', update_record eng i n e p a w = (Ok b, w').
Proof.
  destruct (update_record_outcome eng i n e p a w)
    as [(db & _ & _ & E)|(msg & E)]; rewrite E; eauto.
Qed.

Lemma delete_record_returns (eng : engine) (i : Z) (w : world) :
  exists b w', delete_record eng i w = (Ok b, w').
Proof.
  destruct (delete_record_outcome eng i w)
    as [(db & _ & _ & _ & E)|(msg & E)]; rewrite E; eauto.
Qed.

Ltac shown := apply hoare_show; intros; exact Logic.I.

(** The five checks of a form, then [action]: all that matters here is that
    each branch returns. *)
Ltac through_checks form a :=
  destruct (negb (Py.truthy (Py.strip (entry_name form)))); [shown|];
  destruct (negb (Py.truthy (Py.strip (entry_email form)))); [shown|];
  destruct (negb (Py.truthy (Py.strip (entry_phone form)))); [shown|];
  destruct (negb (Py.contains Py.at_sign (entry_email form))); [shown|];
  destruct (a <? 1); [shown|].

Lemma add_record_page_returns (c : conditions) (form : entries)
    (submit_button : bool) :
  hoare valid_world (add_record_page c form submit_button)
    (fun _ _ => True) no_exception.
Proof.
  unfold add_record_page.
  eapply hoare_bind with (Q := fun _ w => valid_world w);
    [apply hoare_show; intros w Hw; exact Hw|]. intros _.
  eapply hoare_bind; [apply hoare_number_input; lia|]. intros a.
  destruct submit_button; [|now apply hoare_ret].
  through_checks form a.
  eapply hoare_bind.
  - apply hoare_returns. apply insert_record_returns.
  - intros [|]; shown.
Qed.

Lemma update_record_body_returns (c : conditions) (choice : nat)
    (form : entries) (update_button : bool) (df : DataFrame) :
  hoare valid_world (update_record_body c choice form update_button df)
    (fun _ _ => True) no_exception.
Proof.
  unfold update_record_body.
  destruct (df_empty df); [shown|].
  eapply hoare_bind; [apply view_record_by_id_valid|].
  intros [[[[n e] p] a0]|]; [|now apply hoare_ret].
  apply hoare_pure. intros Hage. specialize (Hage n e p a0 eq_refl).
  eapply hoare_bind with (Q := fun _ _ => True); [shown|]. intros _.
  eapply hoare_bind.
  { apply hoare_number_input. destruct (a0 =? 0); lia. }
  intros a. destruct update_button; [|now apply hoare_ret].
  through_checks form a.
  eapply hoare_bind.
  - apply hoare_returns. apply update_record_returns.
  - intros [|]; shown.
Qed.

Lemma delete_record_body_returns (c : conditions) (choice : nat)
    (delete_button : bool) (df : DataFrame) :
  hoare valid_world (delete_record_body c choice delete_button df)
    (fun _ _ => True) no_exception.
Proof.
  unfold delete_record_body.
  destruct (df_empty df); [shown|].
  eapply hoare_bind; [apply view_record_by_id_valid|].
  intros [[[[n e] p] a0]|]; [|now apply hoare_ret].
  eapply hoare_bind with (Q := fun _ _ => True); [shown|]. intros _.
  eapply hoare_bind with (Q := fun _ _ => True); [shown|]. intros _.
  destruct delete_button; [|now apply hoare_ret].
  eapply hoare_bind.
  - apply hoare_returns. apply delete_record_returns.
  - intros [|]; [|shown].
    eapply hoare_bind with (Q := fun _ _ => True); [shown|]. intros _. now apply hoare_ret.
Qed.

Lemma view_records_page_returns (c : conditions) :
  hoare valid_world (view_records_page c) (fun _ _ => True) no_exception.
Proof.
  unfold view_records_page, view_records_body.
  eapply hoare_bind; [apply view_all_records_valid|]. intros df.
  destruct (df_empty df); [shown|].
  eapply hoare_bind with (Q := fun _ _ => True); [shown|]. intros _. shown.
Qed.

Lemma update_record_page_returns (c : conditions) (choice : nat)
    (form : entries) (update_button : bool) :
  hoare valid_world (update_record_page c choice form update_button)
    (fun _ _ => True) no_exception.
Proof.
  unfold update_record_page.
  eapply hoare_bind; [apply view_all_records_valid|]. intros df.
  apply update_record_body_returns.
Qed.

Lemma delete_record_page_returns (c : conditions) (choice : nat)
    (delete_button : bool) :
  hoare valid_world (delete_record_page c choice delete_button)
    (fun _ _ => True) no_exception.
Proof.
  unfold delete_record_page.
  eapply hoare_bind; [apply view_all_records_valid|]. intros df.
  apply delete_record_body_returns.
Qed.

Lemma hoare_fst (m : M unit) (w : world) :
  hoare valid_world m (fun _ _ => True) no_exception -> valid_world w ->
  fst (m w) = Ok tt.
Proof.
  intros H Hw. specialize (H w Hw).
  destruct (m w) as [[[]|x] w']; [reflexivity|destruct H].
Qed.

Lemma app_returns (c : conditions) (op : operation) (w : world) :
  valid_world w ->
  fst (app c op w)
  = match at_init c with
    | Healthy => Ok tt
    | Faulty x => Raise x
    end.
Proof.
  intros Hw. unfold app, bind.
  destruct (at_init c) as [|x]; [|reflexivity].
  rewrite init_database_healthy.
  set (w1 := {| disk := _; clock := clock w; screen := screen w |}).
  assert (Hw1 : valid_world w1).
  { unfold valid_world in *. cbn. destruct (disk w); [exact Hw|constructor]. }
  destruct op as [|form b|choice form b|choice b]; apply hoare_fst;
    try exact Hw1.
  - apply view_records_page_returns.
  - apply add_record_page_returns.
  - apply update_record_page_returns.
  - apply delete_record_page_returns.
Qed.

(** X12. The script does not crash on its own data: in a session that
    starts on a new file, whatever the user does and whatever the engine
    does, a run ends with an exception only when [init_database] raised
    it; the Update form, whose age widget refuses a stored age outside 1 to
    120, always finds one it accepts. *)
Theorem script_raises_only_at_init (start : Z)
    (steps : list (conditions * operation)) (c : conditions)
    (op : operation) :
  fst (app c op (start_of_run (session (fresh start) steps) c))
  = match at_init c with
    | Healthy => Ok tt
    | Faulty x => Raise x
    end.
Proof.
  apply app_returns. unfold valid_world, start_of_run. cbn.
  apply all_valid_session. exact Logic.I.
Qed.

(** ** The age check of the forms never fires *)

Ltac other_element :=
  let H := fresh in
  unfold age_complaint; intros H; try discriminate H;
  vm_compute in H; discriminate H.

Lemma uncomplaining_show (e : element) (w : world) :
  e <> age_complaint -> uncomplaining w ->
  uncomplaining {| disk := disk w; clock := clock w;
                   screen := screen w ++ [e] |}.
Proof.
  intros He Hw Hin. cbn in Hin. apply in_app_or in Hin.
  destruct Hin as [Hin|[Hin|[]]]; [now apply Hw|now apply He].
Qed.

Lemma hoare_show_other (e : element) :
  e <> age_complaint ->
  hoare uncomplaining (show e) (fun _ w => uncomplaining w)
    (fun _ w => uncomplaining w).
Proof. intros He. apply hoare_show. intros w. now apply uncomplaining_show. Qed.

Lemma store_error_other (prefix : string) (msg : str) :
  (exists c rest, prefix = String c rest /\ N_of_ascii c <> 10060%N) ->
  Error (Py.lit prefix ++ msg) <> age_complaint.
Proof.
  intros (c & rest & -> & Hc) H. unfold age_complaint in H.
  injection H as H _. now apply Hc.
Qed.

Ltac store_error :=
  apply uncomplaining_show; [|assumption];
  apply store_error_other; eexists; eexists; split;
  [reflexivity|vm_compute; discriminate].

Lemma uncomplaining_store (eng : engine) (lat : N) (i : Z) (n e p : str)
    (a : Z) (w : world) :
  uncomplaining w ->
  uncomplaining (snd (insert_record eng lat n e p a w))
  /\ uncomplaining (snd (view_all_records eng w))
  /\ uncomplaining (snd (view_record_by_id eng i w))
  /\ uncomplaining (snd (update_record eng i n e p a w))
  /\ uncomplaining (snd (delete_record eng i w)).
Proof.
  intros Hw. repeat split.
  - destruct (insert_record_outcome eng lat n e p a w)
      as [(db & v & _ & _ & _ & E)|(msg & E)]; rewrite E; cbn [snd].
    + exact Hw.
    + assert (Hw' : uncomplaining
                {| disk := disk w; clock := clock w;
                   screen := screen w ++
                     [Error (Py.lit "Error inserting record: " ++ msg)] |})
        by store_error.
      exact Hw'.
  - destruct (view_all_records_outcome eng w)
      as [(db & _ & _ & E)|(msg & E)]; rewrite E; cbn [snd];
      [exact Hw|store_error].
  - destruct (view_record_by_id_outcome eng i w)
      as [(db & _ & _ & _ & E)|(msg & E)]; rewrite E; cbn [snd];
      [exact Hw|store_error].
  - destruct (update_record_outcome eng i n e p a w)
      as [(db & _ & _ & E)|(msg & E)]; rewrite E; cbn [snd];
      [exact Hw|store_error].
  - destruct (delete_record_outcome eng i w)
      as [(db & _ & _ & _ & E)|(msg & E)]; rewrite E; cbn [snd];
      [exact Hw|store_error].
Qed.

Lemma hoare_store {A : Type} (J : world -> Prop) (m : M A)
    (E : str -> world -> Prop) :
  (forall w, exists a w', m w = (Ok a, w')) ->
  (forall w, J w -> J (snd (m w))) ->
  hoare J m (fun _ w => J w) E.
Proof.
  intros Hr HJ w Hw. specialize (HJ w Hw).
  destruct (Hr w) as (a & w' & Em). now rewrite Em in *.
Qed.

Lemma number_input_bounds (P : world -> Prop) (lo hi v entry : Z) :
  hoare P (number_input lo hi v entry) (fun a w => P w /\ lo <= a <= hi)
    (fun _ w => P w).
Proof.
  intros w Hw. unfold number_input.
  destruct (v <? lo) eqn:E1; [exact Hw|].
  destruct (hi <? v) eqn:E2; [exact Hw|].
  cbn. split; [exact Hw|]. apply Z.ltb_ge in E1, E2.
  destruct ((lo <=? entry) && (entry <=? hi)) eqn:E3; [|lia].
  apply andb_true_iff in E3. destruct E3 as [Ea Eb].
  apply Z.leb_le in Ea, Eb. lia.
Qed.

Ltac checks_pass form a Ha :=
  destruct (negb (Py.truthy (Py.strip (entry_name form))));
    [apply hoare_show_other; other_element|];
  destruct (negb (Py.truthy (Py.strip (entry_email form))));
    [apply hoare_show_other; other_element|];
  destruct (negb (Py.truthy (Py.strip (entry_phone form))));
    [apply hoare_show_other; other_element|];
  destruct (negb (Py.contains Py.at_sign (entry_email form)));
    [apply hoare_show_other; other_element|];
  let E := fresh "E" in
  destruct (a <? 1) eqn:E; [apply Z.ltb_lt in E; lia|].

Lemma add_record_page_uncomplaining (c : conditions) (form : entries)
    (submit_button : bool) :
  hoare uncomplaining (add_record_page c form submit_button)
    (fun _ w => uncomplaining w) (fun _ w => uncomplaining w).
Proof.
  unfold add_record_page.
  eapply hoare_bind; [apply hoare_show_other; other_element|]. intros [].
  eapply hoare_bind; [apply number_input_bounds|]. intros a.
  apply hoare_pure. intros Ha.
  destruct submit_button; [|now apply hoare_ret].
  checks_pass form a Ha.
  eapply hoare_bind.
  - apply hoare_store; [apply insert_record_returns|].
    intros w Hw.
    exact (proj1 (uncomplaining_store _ _ 0 _ _ _ _ w Hw)).
  - intros [|]; apply hoare_show_other; other_element.
Qed.

Lemma view_all_records_uncomplaining (eng : engine) :
  hoare uncomplaining (view_all_records eng) (fun _ w => uncomplaining w)
    (fun _ w => uncomplaining w).
Proof.
  apply hoare_store.
  - intros w. destruct (view_all_records_outcome eng w)
      as [(db & _ & _ & E)|(msg & E)]; rewrite E; eauto.
  - intros w Hw.
    exact (proj1 (proj2 (uncomplaining_store eng 0 0 [] [] [] 0 w Hw))).
Qed.

Lemma view_record_by_id_uncomplaining (eng : engine) (i : Z) :
  hoare uncomplaining (view_record_by_id eng i) (fun _ w => uncomplaining w)
    (fun _ w => uncomplaining w).
Proof.
  apply hoare_store.
  - intros w. destruct (view_record_by_id_outcome eng i w)
      as [(db & _ & _ & _ & E)|(msg & E)]; rewrite E; eauto.
  - intros w Hw.
    exact (proj1 (proj2 (proj2
             (uncomplaining_store eng 0 i [] [] [] 0 w Hw)))).
Qed.

Lemma update_record_page_uncomplaining (c : conditions) (choice : nat)
    (form : entries) (update_button : bool) :
  hoare uncomplaining (update_record_page c choice form update_button)
    (fun _ w => uncomplaining w) (fun _ w => uncomplaining w).
Proof.
  unfold update_record_page, update_record_body.
  eapply hoare_bind; [apply view_all_records_uncomplaining|]. intros df.
  destruct (df_empty df); [apply hoare_show_other; other_element|].
  eapply hoare_bind; [apply view_record_by_id_uncomplaining|].
  intros [[[[n e] p] a0]|]; [|now apply hoare_ret].
  eapply hoare_bind; [apply hoare_show_other; other_element|]. intros [].
  eapply hoare_bind; [apply number_input_bounds|]. intros a.
  apply hoare_pure. intros Ha.
  destruct update_button; [|now apply hoare_ret].
  checks_pass form a Ha.
  eapply hoare_bind.
  - apply hoare_store; [apply update_record_returns|].
    intros w Hw.
    exact (proj1 (proj2 (proj2 (proj2
             (uncomplaining_store (at_write c) 0 _ _ _ _ _ w Hw))))).
  - intros [|]; apply hoare_show_other; other_element.
Qed.

Lemma hoare_snd {A : Type} (J : world -> Prop) (m : M A) (w : world) :
  hoare J m (fun _ w' => J w') (fun _ w' => J w') -> J w -> J (snd (m w)).
Proof.
  intros H Hw. specialize (H w Hw). now destruct (m w) as [[a|x] w'].
Qed.

(** X13. The age check of the two forms never fires: the age that the
    widget hands to the script is at least 1, so neither the Add page nor
    the Update page ever shows the message of the check. *)
Theorem age_check_never_fires (c : conditions) (choice : nat)
    (form : entries) (button : bool) (w : world) :
  ~ In age_complaint (screen w) ->
  ~ In age_complaint (screen (snd (add_record_page c form button w)))
  /\ ~ In age_complaint
         (screen (snd (update_record_page c choice form button w))).
Proof.
  intros Hw. split.
  - apply (hoare_snd uncomplaining); [|exact Hw].
    apply add_record_page_uncomplaining.
  - apply (hoare_snd uncomplaining); [|exact Hw].
    apply update_record_page_uncomplaining.
Qed.

Lemma age_check_never_fires_witness :
  let form := {| entry_name := text_lit "Jane Doe"; entry_age := -5;
                 entry_email := text_lit "jane@x.com";
                 entry_phone := text_lit "555-1234" |} in
  ~ In age_complaint (screen (snd (add_record_page fair form true jane_world)))
  /\ ~ In age_complaint
         (screen (snd (update_record_page fair 0 form true jane_world))).
Proof.
  intro form. apply (age_check_never_fires fair 0 form true jane_world).
  intros [].
Defined.

(** ** What the Add form accepts *)

Lemma strip_blank (s : str) : blank s -> Py.strip s = [].
Proof.
  intros H. unfold Py.strip.
  assert (E : Py.lstrip s = []).
  { induction H as [|c t Hc Ht IH]; cbn; [reflexivity|now rewrite Hc]. }
  now rewrite E.
Qed.

Lemma committed_age_bounds (entry : Z) : 1 <= committed_age 25 entry <= 120.
Proof.
  unfold committed_age.
  destruct ((1 <=? entry) && (entry <=? 120)) eqn:E; [|lia].
  apply andb_true_iff in E. destruct E as [Ea Eb].
  apply Z.leb_le in Ea, Eb. lia.
Qed.

(** The page once the widget has given its age. *)
Lemma add_record_page_widget (c : conditions) (form : entries)
    (submit_button : bool) (w : world) :
  add_record_page c form submit_button w
  = (st_subheader (Py.lit "Enter New User Details");;
     let age' := committed_age 25 (entry_age form) in
     if submit_button then
       if negb (Py.truthy (Py.strip (entry_name form))) then
         st_error (cross_mark ++ Py.lit " Name cannot be empty!")
       else if negb (Py.truthy (Py.strip (entry_email form))) then
         st_error (cross_mark ++ Py.lit " Email cannot be empty!")
       else if negb (Py.truthy (Py.strip (entry_phone form))) then
         st_error (cross_mark ++ Py.lit " Phone cannot be empty!")
       else if negb (Py.contains Py.at_sign (entry_email form)) then
         st_error (cross_mark ++ Py.lit " Please enter a valid email address!")
       else
         ok <- insert_record (at_write c) (latency c) (entry_name form)
                 (entry_email form) (entry_phone form) age';;
         if ok then
           st_success (check_mark ++ Py.lit " Record added successfully! Name: "
                       ++ entry_name form ++ Py.lit ", Age: "
                       ++ Py.repr_int age')
         else
           st_error (cross_mark ++ Py.lit " Failed to add record.")
     else ret tt) w.
Proof.
  unfold add_record_page, number_input. cbn [Z.ltb Z.compare Pos.compare
    Pos.compare_cont]. unfold bind at 1 2, ret at 1.
  unfold bind at 1. unfold st_subheader at 1 2, show. cbn zeta.
  fold (committed_age 25 (entry_age form)).
  pose proof (committed_age_bounds (entry_age form)) as Ha.
  destruct (committed_age 25 (entry_age form) <? 1) eqn:E;
    [apply Z.ltb_lt in E; lia|].
  reflexivity.
Qed.

Lemma accepted_checks (form : entries) :
  accepted form = true ->
  negb (Py.truthy (Py.strip (entry_name form))) = false
  /\ negb (Py.truthy (Py.strip (entry_email form))) = false
  /\ negb (Py.truthy (Py.strip (entry_phone form))) = false
  /\ negb (Py.contains Py.at_sign (entry_email form)) = false.
Proof.
  unfold accepted. rewrite !andb_true_iff. intros [[[-> ->] ->] ->].
  repeat split.
Qed.

Lemma form_bindable (form : entries) (a : Z) :
  1 <= a <= 120 ->
  bindable_fields (entry_name form) (entry_email form) (entry_phone form) a
  = true.
Proof.
  intros Ha. unfold bindable_fields. rewrite !text_encodable. cbn.
  apply int64_bounds. lia.
Qed.

(** X14. A submission that the Add form refuses changes nothing but the
    page: when a text is empty after [strip()] or the email has no at sign,
    the page shows, after the subheader of the form, one error, and file
    and clock are as they were; a name of white space only gets the message
    about the name; and without the button pressed the page shows the
    subheader and does nothing else. *)
Theorem add_form_refused (c : conditions) (form : entries) (w : world) :
  (accepted form = false ->
   exists msg,
     add_record_page c form true w
     = (Ok tt, {| disk := disk w; clock := clock w;
                  screen := screen w ++
                    [Subheader (Py.lit "Enter New User Details");
                     Error msg] |}))
  /\ (blank (entry_name form) ->
      add_record_page c form true w
      = (Ok tt, {| disk := disk w; clock := clock w;
                   screen := screen w ++
                     [Subheader (Py.lit "Enter New User Details");
                      Error (cross_mark ++ Py.lit " Name cannot be empty!")] |}))
  /\ add_record_page c form false w
     = (Ok tt, {| disk := disk w; clock := clock w;
                  screen := screen w ++
                    [Subheader (Py.lit "Enter New User Details")] |}).
Proof.
  rewrite !add_record_page_widget. unfold bind, st_subheader, st_error, show.
  cbn [disk clock screen]. cbn zeta. split; [|split].
  - unfold accepted. intros H.
    destruct (Py.truthy (Py.strip (entry_name form))); cbn in *;
      [|eexists; rewrite <- app_assoc; reflexivity].
    destruct (Py.truthy (Py.strip (entry_email form))); cbn in *;
      [|eexists; rewrite <- app_assoc; reflexivity].
    destruct (Py.truthy (Py.strip (entry_phone form))); cbn in *;
      [|eexists; rewrite <- app_assoc; reflexivity].
    rewrite H. cbn. eexists; rewrite <- app_assoc; reflexivity.
  - intros Hb. rewrite (strip_blank _ Hb). cbn.
    now rewrite <- app_assoc.
  - reflexivity.
Qed.

Lemma add_form_refused_witness :
  let form := {| entry_name := text_lit "   "; entry_age := 30;
                 entry_email := text_lit "jane@x.com";
                 entry_phone := text_lit "555-1234" |} in
  (exists msg,
     add_record_page fair form true jane_world
     = (Ok tt, {| disk := disk jane_world; clock := clock jane_world;
                  screen := screen jane_world ++
                    [Subheader (Py.lit "Enter New User Details");
                     Error msg] |}))
  /\ add_record_page fair form true jane_world
     = (Ok tt, {| disk := disk jane_world; clock := clock jane_world;
                  screen := screen jane_world ++
                    [Subheader (Py.lit "Enter New User Details");
                     Error (cross_mark ++ Py.lit " Name cannot be empty!")] |}).
Proof.
  intro form. split.
  - apply (proj1 (add_form_refused fair form jane_world)). reflexivity.
  - apply (proj1 (proj2 (add_form_refused fair form jane_world))).
    repeat constructor.
Defined.

(** X15. A submission that the Add form accepts is stored as typed: when
    the three texts are not empty after [strip()] and the email has an at
    sign, with a healthy engine and a rowid left, the new row holds the
    texts exactly as typed (not stripped), the age of the widget (what was
    typed when that is from 1 to 120, the default 25 otherwise), the rowid
    of AUTOINCREMENT and the time of the INSERT; the page shows the
    subheader of the form and the success message. *)
Theorem add_form_accepted (c : conditions) (form : entries) (w : world)
    (db : database) (v : Z) :
  accepted form = true ->
  at_write c = Healthy ->
  disk w = Some db ->
  new_rowid db = Some v ->
  add_record_page c form true w
  = (Ok tt,
     {| disk :=
          Some {| users := users db ++
                    [mk_user v (entry_name form) (entry_email form)
                       (entry_phone form)
                       (committed_age 25 (entry_age form))
                       (clock w + Z.of_N (latency c))];
                  sqlite_sequence := v |};
        clock := clock w + Z.of_N (latency c);
        screen := screen w ++
          [Subheader (Py.lit "Enter New User Details");
           Success (check_mark ++ Py.lit " Record added successfully! Name: "
                    ++ entry_name form ++ Py.lit ", Age: "
                    ++ Py.repr_int (committed_age 25 (entry_age form)))] |}).
Proof.
  intros Ha Hw Hd Hv. rewrite add_record_page_widget.
  unfold bind at 1. unfold st_subheader at 1, show at 1. cbn zeta.
  destruct (accepted_checks form Ha) as (-> & -> & -> & ->).
  unfold bind. rewrite Hw.
  erewrite (insert_record_healthy _ db v);
    [|exact Hd|exact Hv|apply form_bindable, committed_age_bounds].
  unfold st_success, show. cbn [disk clock screen].
  now rewrite <- app_assoc.
Qed.

Lemma add_form_accepted_witness :
  let form := {| entry_name := text_lit " Jane Doe "; entry_age := 500;
                 entry_email := text_lit "jane@x.com";
                 entry_phone := text_lit "555-1234" |} in
  stored (snd (add_record_page fair form true empty_world))
  = [mk_user 1 (Py.lit " Jane Doe ") (Py.lit "jane@x.com")
       (Py.lit "555-1234") 25 1001].
Proof.
  intro form.
  rewrite (add_form_accepted fair form empty_world empty_table 1);
    reflexivity.
Defined.

(** ** The Delete and Update pages act on a listed record *)

Lemma selectbox_In (options : list Z) (choice : nat) :
  options <> [] -> In (selectbox options choice) options.
Proof.
  intros Hne. unfold selectbox.
  destruct (nth_in_or_default choice options (hd 0 options)) as [H|E];
    [exact H|].
  rewrite E. destruct options as [|x t]; [contradiction|now left].
Qed.

Lemma selected_id_stored (db : database) (choice : nat) :
  users db <> [] -> In (selected_id db choice) (ids (users db)).
Proof.
  intros Hne. unfold selected_id.
  assert (Hin : In (selectbox (ids (order_by_id_desc (users db))) choice)
                  (ids (order_by_id_desc (users db)))).
  { apply selectbox_In. intros E. apply Hne.
    apply map_eq_nil in E.
    apply Permutation_nil. rewrite <- E.
    apply Permutation_sym, order_by_id_desc_perm. }
  unfold ids in *. apply in_map_iff in Hin. destruct Hin as (r & E & Hr).
  apply in_map_iff. exists r. split; [exact E|].
  now apply order_by_id_desc_In.
Qed.

Lemma find_id_in (i : Z) (l : list user) :
  In i (ids l) -> exists r, find (fun x => id x =? i) l = Some r.
Proof.
  induction l as [|x t IH]; cbn; intros H; [contradiction|].
  destruct (id x =? i) eqn:E; [now exists x|].
  apply IH. destruct H as [H|H]; [|exact H].
  apply Z.eqb_neq in E. contradiction.
Qed.

Lemma listed_not_empty (db : database) :
  users db <> [] ->
  df_empty {| columns := users_columns;
              rows := order_by_id_desc (users db) |} = false.
Proof.
  intros Hne. unfold df_empty. cbn [columns rows].
  destruct (order_by_id_desc (users db)) as [|x t] eqn:E; [|reflexivity].
  exfalso. apply Hne. apply Permutation_nil. rewrite <- E.
  apply Permutation_sym, order_by_id_desc_perm.
Qed.

(** X16. The Delete page deletes the record that is selected, and that
    record exists: with a healthy engine and a table that is not empty, the
    id in the select box is the id of a stored record; pressing the button
    removes the rows with this id and no other, and the page ends with the
    success message; without the button the file stays as it was. *)
Theorem delete_page_removes_selected (c : conditions) (choice : nat)
    (w : world) (db : database) :
  at_list c = Healthy -> at_get c = Healthy -> at_write c = Healthy ->
  disk w = Some db -> users db <> [] ->
  let i := selected_id db choice in
  In i (stored_ids w)
  /\ fst (delete_record_page c choice true w) = Ok tt
  /\ stored (snd (delete_record_page c choice true w))
     = filter (fun r => negb (id r =? i)) (stored w)
  /\ last (screen (snd (delete_record_page c choice true w))) (Info [])
     = Success (check_mark ++ Py.lit " Record deleted successfully! ID: "
                ++ Py.repr_int i)
  /\ disk (snd (delete_record_page c choice false w)) = disk w.
Proof.
  intros Hl Hg Hw Hd Hne i.
  pose proof (selected_id_stored db choice Hne) as Hin. fold i in Hin.
  pose proof (ids_fit i (users db) Hin) as Hi.
  destruct (find_id_in i (users db) Hin) as [r Hr].
  split; [unfold stored_ids; now rewrite (stored_some w db Hd)|].
  assert (Ebody : forall button,
    delete_record_page c choice button w
    = (st_warning (warning_sign
                   ++ Py.lit " You are about to delete the following record:");;
       st_info (details i (name r) (email r) (phone r) (age r));;
       if button then
         ok <- delete_record Healthy i;;
         if ok then
           st_success (check_mark ++ Py.lit " Record deleted successfully! ID: "
                       ++ Py.repr_int i);;
           st_rerun
         else st_error (cross_mark ++ Py.lit " Failed to delete record.")
       else ret tt) w).
  { intros button. unfold delete_record_page. unfold bind at 1.
    rewrite Hl, (view_all_records_healthy w db Hd).
    unfold delete_record_body. rewrite (listed_not_empty db Hne).
    unfold df_id_tolist. cbn [rows]. fold (selected_id db choice). fold i.
    unfold bind at 1.
    rewrite Hg, (view_record_by_id_healthy w db i Hd Hi), Hr, Hw.
    reflexivity. }
  rewrite !Ebody. unfold bind, st_warning, st_info, st_success, st_rerun,
    show, ret. cbn [disk clock screen].
  erewrite delete_record_healthy by (exact Hi || (cbn; exact Hd)).
  unfold stored. cbn [fst snd disk screen users]. rewrite Hd.
  repeat split.
  rewrite !last_last. reflexivity.
Qed.

Lemma delete_page_removes_selected_witness :
  In (selected_id jane_db 0) (stored_ids jane_world)
  /\ fst (delete_record_page fair 0 true jane_world) = Ok tt
  /\ stored (snd (delete_record_page fair 0 true jane_world))
     = filter (fun r => negb (id r =? selected_id jane_db 0))
         (stored jane_world)
  /\ last (screen (snd (delete_record_page fair 0 true jane_world)))
       (Info [])
     = Success (check_mark ++ Py.lit " Record deleted successfully! ID: "
                ++ Py.repr_int (selected_id jane_db 0))
  /\ disk (snd (delete_record_page fair 0 false jane_world))
     = disk jane_world.
Proof.
  apply (delete_page_removes_selected fair 0 jane_world jane_db);
    try reflexivity.
  discriminate.
Defined.

Lemma number_input_value (v entry : Z) (w : world) :
  1 <= v <= 120 ->
  number_input 1 120 v entry w = (Ok (committed_age v entry), w).
Proof.
  intros Hv. unfold number_input.
  destruct (v <? 1) eqn:E1; [apply Z.ltb_lt in E1; lia|].
  destruct (120 <? v) eqn:E2; [apply Z.ltb_lt in E2; lia|].
  reflexivity.
Qed.

Lemma committed_age_at_least_1 (v entry : Z) :
  1 <= v -> (committed_age v entry <? 1) = false.
Proof.
  intros Hv. apply Z.ltb_ge. unfold committed_age.
  destruct ((1 <=? entry) && (entry <=? 120)) eqn:E; [|lia].
  apply andb_true_iff in E. destruct E as [Ea _]. now apply Z.leb_le in Ea.
Qed.

(** X17. The Update page updates the record that is selected, and that
    record exists: with a healthy engine, a table that is not empty and
    whose rows are valid, and a form that passes the checks, the id in the
    select box is the id of a stored record; pressing the button gives this
    record the three texts as typed and the age of the widget (what was
    typed when that is from 1 to 120, the stored age otherwise) and leaves
    all other rows alone; without the button the file stays as it was. *)
Theorem update_page_updates_selected (c : conditions) (choice : nat)
    (form : entries) (w : world) (db : database) :
  at_list c = Healthy -> at_get c = Healthy -> at_write c = Healthy ->
  disk w = Some db -> users db <> [] -> all_valid (disk w) ->
  accepted form = true ->
  let i := selected_id db choice in
  exists r,
    In r (stored w) /\ id r = i
    /\ fst (update_record_page c choice form true w) = Ok tt
    /\ stored (snd (update_record_page c choice form true w))
       = List.map (set_fields i (entry_name form) (entry_email form)
                     (entry_phone form)
                     (committed_age (age r) (entry_age form)))
           (stored w)
    /\ disk (snd (update_record_page c choice form false w)) = disk w.
Proof.
  intros Hl Hg Hw Hd Hne Hvalid Ha i.
  pose proof (selected_id_stored db choice Hne) as Hin. fold i in Hin.
  pose proof (ids_fit i (users db) Hin) as Hi.
  destruct (find_id_in i (users db) Hin) as [r Hr].
  destruct (find_id_some _ _ _ Hr) as [Hrin Hri].
  assert (Hage : 1 <= age r <= 120).
  { rewrite Hd in Hvalid. cbn in Hvalid. rewrite Forall_forall in Hvalid.
    now apply (Hvalid r Hrin). }
  assert (E0 : (age r =? 0) = false) by (apply Z.eqb_neq; lia).
  exists r. rewrite (stored_some w db Hd).
  split; [exact Hrin|]. split; [exact Hri|].
  assert (Ebody : forall button,
    update_record_page c choice form button w
    = (st_subheader (Py.lit "Updating Record ID: " ++ Py.repr_int i);;
       if button then
         ok <- update_record Healthy i (entry_name form) (entry_email form)
                 (entry_phone form) (committed_age (age r) (entry_age form));;
         if ok then
           st_success (check_mark ++ Py.lit " Record updated successfully!")
         else st_error (cross_mark ++ Py.lit " Failed to update record.")
       else ret tt) w).
  { intros button. unfold update_record_page. unfold bind at 1.
    rewrite Hl, (view_all_records_healthy w db Hd).
    unfold update_record_body. rewrite (listed_not_empty db Hne).
    unfold df_id_tolist. cbn [rows]. fold (selected_id db choice). fold i.
    unfold bind at 1.
    rewrite Hg, (view_record_by_id_healthy w db i Hd Hi), Hr, Hw.
    cbn [option_map fields]. rewrite E0.
    unfold bind at 1 3, st_subheader, show. unfold bind at 1.
    rewrite number_input_value by exact Hage.
    destruct (accepted_checks form Ha) as (-> & -> & -> & ->).
    rewrite committed_age_at_least_1 by lia.
    reflexivity. }
  rewrite !Ebody. unfold bind, st_subheader, st_success, show, ret.
  cbn [disk clock screen].
  assert (Hc : 1 <= committed_age (age r) (entry_age form) <= 120).
  { unfold committed_age.
    destruct ((1 <=? entry_age form) && (entry_age form <=? 120)) eqn:E;
      [|exact Hage].
    apply andb_true_iff in E. destruct E as [Ea Eb].
    apply Z.leb_le in Ea, Eb. lia. }
  erewrite update_record_healthy
    by (exact Hi || (apply form_bindable; exact Hc) || (cbn; exact Hd)).
  unfold stored. cbn [fst snd disk users]. rewrite Hd. repeat split.
Qed.

Lemma update_page_updates_selected_witness :
  let form := {| entry_name := text_lit "Jane Roe"; entry_age := 0;
                 entry_email := text_lit "roe@x.com";
                 entry_phone := text_lit "555-9999" |} in
  exists r,
    In r (stored jane_world) /\ id r = selected_id jane_db 0
    /\ fst (update_record_page fair 0 form true jane_world) = Ok tt
    /\ stored (snd (update_record_page fair 0 form true jane_world))
       = List.map (set_fields (selected_id jane_db 0) (entry_name form)
                     (entry_email form) (entry_phone form)
                     (committed_age (age r) (entry_age form)))
           (stored jane_world)
    /\ disk (snd (update_record_page fair 0 form false jane_world))
       = disk jane_world.
Proof.
  intro form.
  apply (update_page_updates_selected fair 0 form jane_world jane_db);
    try reflexivity.
  - discriminate.
  - cbn. constructor; [|constructor]. exact valid_jane.
Defined.

(** ** Sessions keep the ids apart *)

Lemma consistent_app (c : conditions) (op : operation) :
  triple consistent (app c op) (fun _ => True).
Proof.
  unfold app.
  eapply triple_bind; [apply triple_init_database, consistent_create|].
  intros _ _. destruct op as [|form b|choice form b|choice b].
  - apply triple_view_records_page.
  - apply triple_add_record_page. intros now a _. apply consistent_insert.
  - apply triple_update_record_page. intros i a _. apply consistent_update.
  - apply triple_delete_record_page. apply consistent_delete.
Qed.

Lemma consistent_session (steps : list (conditions * operation)) (w : world) :
  consistent (disk w) -> consistent (disk (session w steps)).
Proof.
  revert w. induction steps as [|step rest IH]; intros w Hw; [exact Hw|].
  cbn. apply IH. unfold run.
  now apply (triple_snd consistent _ _ _
               (consistent_app (fst step) (snd step))).
Qed.

(** X18. After any session of the application on a new file, whatever the
    user does and whatever the engine does, the ids in the store are
    distinct, positive and not above the rowid that AUTOINCREMENT recorded
    last. *)
Theorem session_ids_distinct (start : Z)
    (steps : list (conditions * operation)) :
  let w := session (fresh start) steps in
  NoDup (stored_ids w)
  /\ Forall (fun i => 1 <= i <= high_water w) (stored_ids w).
Proof.
  intro w. apply consistent_stored_ids.
  apply consistent_session. exact Logic.I.
Qed.

(** ** The View page *)

(** X19. The View page shows the whole table: with a healthy engine and a
    table that is not empty it puts on the page the number of stored
    records and one DataFrame with all of them, ordered by id descending;
    for an empty table it shows the notice instead; it changes neither the
    file nor the clock. *)
Theorem view_page_shows_all (c : conditions) (w : world) (db : database) :
  at_list c = Healthy -> disk w = Some db ->
  exists shown,
    view_records_page c w
    = (Ok tt, {| disk := disk w; clock := clock w;
                 screen := screen w ++ shown |})
    /\ (users db = [] ->
        shown = [Info (Py.lit
                   "No records found. Start by adding a new record!")])
    /\ (users db <> [] ->
        exists df,
          shown = [Subheader (Py.lit "Total Records: "
                              ++ Py.repr_int (Z.of_nat (List.length (users db))));
                   Dataframe df]
          /\ Permutation (users db) (rows df) /\ sorted_desc (rows df)).
Proof.
  intros Hl Hd. unfold view_records_page. unfold bind at 1.
  rewrite Hl, (view_all_records_healthy w db Hd). unfold view_records_body.
  destruct (users db) as [|x t] eqn:Eu.
  - eexists. split; [reflexivity|]. split; [reflexivity|]. now intros H.
  - assert (Hne : users db <> []) by (rewrite Eu; discriminate).
    rewrite <- Eu. rewrite (listed_not_empty db Hne).
    unfold bind, st_subheader, st_dataframe, show. cbn [disk clock screen].
    rewrite <- app_assoc. eexists. split; [reflexivity|].
    split; [intros H; contradiction|]. intros _.
    exists {| columns := users_columns;
              rows := order_by_id_desc (users db) |}.
    split; [|split; [apply order_by_id_desc_perm
                    |apply order_by_id_desc_sorted]].
    unfold df_len. cbn [rows app].
    now rewrite <- (Permutation_length (order_by_id_desc_perm (users db))).
Qed.

Lemma view_page_shows_all_witness :
  exists shown,
    view_records_page fair jane_world
    = (Ok tt, {| disk := disk jane_world; clock := clock jane_world;
                 screen := screen jane_world ++ shown |})
    /\ (users jane_db = [] ->
        shown = [Info (Py.lit
                   "No records found. Start by adding a new record!")])
    /\ (users jane_db <> [] ->
        exists df,
          shown = [Subheader (Py.lit "Total Records: "
                              ++ Py.repr_int
                                   (Z.of_nat (List.length (users jane_db))));
                   Dataframe df]
          /\ Permutation (users jane_db) (rows df) /\ sorted_desc (rows df)).
Proof.
  apply (view_page_shows_all fair jane_world jane_db); reflexivity.
Defined.

(** ** A stored age that the widget refuses *)

(** X20. The Update page cannot open a record whose stored age is outside
    the bounds of its widget: with a healthy engine, when the selected
    record has an age below 0 or above 120, the page raises the exception
    of the widget before any form is handled, and the file stays as it
    was. *)
Theorem update_page_refuses_stored_age (c : conditions) (choice : nat)
    (form : entries) (button : bool) (w : world) (db : database)
    (r : user) :
  at_list c = Healthy -> at_get c = Healthy ->
  disk w = Some db -> users db <> [] ->
  find (fun x => id x =? selected_id db choice) (users db) = Some r ->
  age r < 0 \/ 120 < age r ->
  exists x w',
    update_record_page c choice form button w = (Raise x, w')
    /\ disk w' = disk w.
Proof.
  intros Hl Hg Hd Hne Hr Hage.
  assert (Hi : int64 (selected_id db choice) = true).
  { destruct (find_id_some _ _ _ Hr) as [_ <-]. apply id_fits. }
  unfold update_record_page. unfold bind at 1.
  rewrite Hl, (view_all_records_healthy w db Hd).
  unfold update_record_body. rewrite (listed_not_empty db Hne).
  unfold df_id_tolist. cbn [rows]. fold (selected_id db choice).
  unfold bind at 1.
  rewrite Hg, (view_record_by_id_healthy w db _ Hd Hi), Hr.
  cbn [option_map fields].
  assert (E0 : (age r =? 0) = false) by (apply Z.eqb_neq; lia).
  rewrite E0. unfold bind at 1, st_subheader, show. unfold bind at 1.
  unfold number_input.
  destruct (age r <? 1) eqn:E1.
  - eexists. eexists. split; reflexivity.
  - destruct (120 <? age r) eqn:E2.
    + eexists. eexists. split; reflexivity.
    + apply Z.ltb_ge in E1, E2. lia.
Qed.

Lemma update_page_refuses_stored_age_witness :
  let r := mk_user 1 (Py.lit "Old") (Py.lit "old@x.com") (Py.lit "1") 150 10 in
  let db := {| users := [r]; sqlite_sequence := 1 |} in
  let w := {| disk := Some db; clock := 100; screen := [] |} in
  exists x w',
    update_record_page fair 0 jane_form true w = (Raise x, w')
    /\ disk w' = disk w.
Proof.
  intros r db w.
  apply (update_page_refuses_stored_age fair 0 jane_form true w db r);
    try reflexivity.
  - discriminate.
  - right. cbn. lia.
Defined.
